(** * Dice Roll Game: a shallow embedding of [main.py]

    The development embeds the [Player] and [GameState] classes, the
    [authenticate] function and the game section of the [__main__] block
    as functions over an explicit world, and proves properties of the
    scoring rules, of the turn and round counters, of the tie break and
    of the login check.

    Integers are [Z] (Python integers are unbounded).  Python objects
    that are mutated in place through references ([Player]) live in a
    store addressed by locations; the single [GameState] object, which
    is only ever reached through one name, is passed by value. *)

From Stdlib Require Import ZArith List String Ascii Bool Lia.
From Stdlib Require Import Permutation Sorted.
Import ListNotations.
Local Open Scope string_scope.
Local Open Scope Z_scope.

(** ** The world *)

(** One argument of a [print] call (an f-string is split at its
    placeholders). *)
Inductive Item : Type :=
| Str (s : string)
| Int (z : Z).

(** Observable effects, in the order the interpreter performs them. *)
Inductive Event : Type :=
| Print (items : list Item)               (* print(...) : separators and line ends are not recorded *)
| Prompt (text : string)                  (* the prompt written by input(...) *)
| DbConnect (name : string)               (* sqlite3.connect(name) *)
| DbExecute (sql : string) (arg : string) (* cursor.execute(sql, (arg,)) *)
| DbCommit                                (* connection.commit() *)
| DbClose.                                (* connection.close() *)

(** Locations of [Player] objects. *)
Definition loc : Type := nat.

(** class Player: the two attributes set by [__init__]. *)
Record Player : Type := mkPlayer {
  username : string;
  score : Z
}.

(** The world a run acts on.  [entropy] is the raw output of the random
    generator and [draws] the number of values taken from it so far;
    [stdin] holds the lines still to be typed; [trace] is the list of
    effects performed, newest first; [heap] maps each location to the
    [Player] object stored there and [next_loc] is the first location
    not yet allocated; [users] is the content of the table [users] of
    the database, one (username, password) pair per record. *)
Record World : Type := mkWorld {
  entropy : nat -> Z;
  draws : nat;
  stdin : list string;
  trace : list Event;
  heap : loc -> Player;
  next_loc : loc;
  users : list (string * string)
}.

(** ** Results and the monad of effects *)

(** The exceptions the embedded code can raise. *)
Inductive Exn : Type :=
| IndexError   (* a list index out of range *)
| EOFError.    (* input() at the end of the input *)

(** A computation returns a value, raises, or is cut off because the
    bound given to one of its loops was reached. *)
Inductive Res (A : Type) : Type :=
| Ok (a : A)
| Raise (e : Exn)
| OutOfFuel.
Arguments Ok {A} a.
Arguments Raise {A} e.
Arguments OutOfFuel {A}.

Definition M (A : Type) : Type := World -> Res A * World.

Definition ret {A : Type} (a : A) : M A := fun w => (Ok a, w).

Definition bind {A B : Type} (m : M A) (k : A -> M B) : M B :=
  fun w =>
    match m w with
    | (Ok a, w1) => k a w1
    | (Raise e, w1) => (Raise e, w1)
    | (OutOfFuel, w1) => (OutOfFuel, w1)
    end.

Definition raise {A : Type} (e : Exn) : M A := fun w => (Raise e, w).

Definition out_of_fuel {A : Type} : M A := fun w => (OutOfFuel, w).

Notation "x <- m ;; k" := (bind m (fun x => k))
  (at level 61, m at next level, right associativity).
Notation "m ;; k" := (bind m (fun _ => k))
  (at level 61, right associativity).

(** The value and the final world of a run. *)
Definition result {A : Type} (r : Res A * World) : Res A := fst r.
Definition world {A : Type} (r : Res A * World) : World := snd r.

(** ** Primitive operations *)

Definition emit (e : Event) : M unit :=
  fun w => (Ok tt, mkWorld (entropy w) (draws w) (stdin w) (e :: trace w)
                           (heap w) (next_loc w) (users w)).

(** print(...) *)
Definition print (items : list Item) : M unit := emit (Print items).

(** time.sleep(...): the passing of time is not observed. *)
Definition time_sleep : M unit := ret tt.

(** The line feed written as a backslash escape in the source. *)
Definition NL : string := String (ascii_of_nat 10) EmptyString.

(** input(prompt): writes the prompt and reads one line. *)
Definition input (prompt : string) : M string :=
  fun w =>
    match stdin w with
    | [] => (Raise EOFError,
             mkWorld (entropy w) (draws w) [] (Prompt prompt :: trace w)
                     (heap w) (next_loc w) (users w))
    | line :: rest => (Ok line,
             mkWorld (entropy w) (draws w) rest (Prompt prompt :: trace w)
                     (heap w) (next_loc w) (users w))
    end.

(** The value random.randint(a, b) makes of one raw value of the
    generator: an integer N with a <= N <= b, every one of them
    possible. *)
Definition randint_of (a b raw : Z) : Z := a + raw mod (b - a + 1).

(** random.randint(a, b) *)
Definition randint (a b : Z) : M Z :=
  fun w => (Ok (randint_of a b (entropy w (draws w))),
            mkWorld (entropy w) (S (draws w)) (stdin w) (trace w)
                    (heap w) (next_loc w) (users w)).

(** l[i] on a Python list: indices count from the end when negative. *)
Definition py_index {A : Type} (l : list A) (i : Z) : M A :=
  let n := Z.of_nat (List.length l) in
  let j := if i <? 0 then i + n else i in
  if (0 <=? j) && (j <? n)
  then match nth_error l (Z.to_nat j) with
       | Some x => ret x
       | None => raise IndexError
       end
  else raise IndexError.

(** p.username and p.score, read through the reference p *)
Definition get_username (p : loc) : M string :=
  fun w => (Ok (username (heap w p)), w).

Definition get_score (p : loc) : M Z :=
  fun w => (Ok (score (heap w p)), w).

(** The store with the object at [p] replaced. *)
Definition heap_set (h : loc -> Player) (p : loc) (v : Player) : loc -> Player :=
  fun q => if Nat.eqb q p then v else h q.

(** p.score = v *)
Definition set_score (p : loc) (v : Z) : M unit :=
  fun w => (Ok tt,
            mkWorld (entropy w) (draws w) (stdin w) (trace w)
                    (heap_set (heap w) p (mkPlayer (username (heap w p)) v))
                    (next_loc w) (users w)).

(** p.score += v *)
Definition add_score (p : loc) (v : Z) : M unit :=
  s <- get_score p ;;
  set_score p (s + v).

(** Player(username): a new object with score 0. *)
Definition Player_init (name : string) : M loc :=
  fun w => (Ok (next_loc w),
            mkWorld (entropy w) (draws w) (stdin w) (trace w)
                    (heap_set (heap w) (next_loc w) (mkPlayer name 0))
                    (S (next_loc w)) (users w)).

(** for _ in range(n): body *)
Fixpoint for_range (n : nat) (body : M unit) : M unit :=
  match n with
  | O => ret tt
  | S n' => body ;; for_range n' body
  end.

(** ** class GameState *)

Record GameState : Type := mkGameState {
  rounds : Z;           (* current round number *)
  players : list loc;   (* a list of player objects *)
  turn : Z              (* index into players of the current player *)
}.

(** GameState.__init__ *)
Definition GameState_init (ps : list loc) : GameState :=
  mkGameState 1 ps 0.

(** GameState._roll_dice *)
Definition _roll_dice : M Z :=
  print [Str "Rolling"] ;;
  for_range 9 (time_sleep ;; print [Str "."]) ;;
  print [Str "."] ;;
  score <- randint 1 7 ;;
  print [Str "You rolled: "; Int score; Str NL] ;;
  ret score.

(** GameState._check_double *)
Definition _check_double (roll1 roll2 : Z) : M Z :=
  if roll1 =? roll2 then
    print [Str "!!DOUBLE!!"] ;;
    extra_score <- _roll_dice ;;
    ret (roll1 + roll2 + extra_score)
  else ret (roll1 + roll2).

(** GameState._check_even: [score % 2] is true when it is not zero. *)
Definition _check_even (score : Z) : M Z :=
  if negb (score mod 2 =? 0) then ret score
  else
    print [Str "Add 10 for even"] ;;
    ret (score + 10).

(** GameState._check_odd *)
Definition _check_odd (score : Z) : M Z :=
  if negb (score mod 2 =? 0) then
    print [Str "Subtract 5 for odd"] ;;
    let score := score - 5 in
    if score <? 0 then ret 0
    else ret score
  else ret score.

(** GameState._calculate_scores *)
Definition _calculate_scores (roll1 roll2 : Z) : M Z :=
  double_score <- _check_double roll1 roll2 ;;
  even_score <- _check_even double_score ;;
  odd_score <- _check_odd even_score ;;
  ret odd_score.

(** GameState.is_draw *)
Definition is_draw (self : GameState) : M bool :=
  p0 <- py_index (players self) 0 ;;
  s0 <- get_score p0 ;;
  p1 <- py_index (players self) 1 ;;
  s1 <- get_score p1 ;;
  ret (s0 =? s1).

(** GameState.play_draw: the loop runs at most [fuel] tests of its
    condition. *)
Fixpoint play_draw (fuel : nat) (self : GameState) : M unit :=
  match fuel with
  | O => out_of_fuel
  | S fuel' =>
      draw <- is_draw self ;;
      if draw then
        print [Str (NL ++ "===DRAW ROLL===")] ;;
        p0 <- py_index (players self) 0 ;;
        name0 <- get_username p0 ;;
        print [Str "Player Rolling: "; Str name0] ;;
        player1_roll <- _roll_dice ;;
        p1 <- py_index (players self) 1 ;;
        name1 <- get_username p1 ;;
        print [Str "Player Rolling: "; Str name1] ;;
        player2_roll <- _roll_dice ;;
        q0 <- py_index (players self) 0 ;;
        add_score q0 player1_roll ;;
        q1 <- py_index (players self) 1 ;;
        add_score q1 player2_roll ;;
        play_draw fuel' self
      else ret tt
  end.

(** GameState.play_round: returns the object after its update. *)
Definition play_round (self : GameState) : M GameState :=
  print [Str (NL ++ "===NEW ROUND===")] ;;
  print [Str "=Roll 1="] ;;
  dice_val1 <- _roll_dice ;;
  print [Str "=Roll 2="] ;;
  dice_val2 <- _roll_dice ;;
  score <- _calculate_scores dice_val1 dice_val2 ;;
  print [Str "Final Score: "; Int score; Str NL] ;;
  current_player <- py_index (players self) (turn self) ;;
  add_score current_player score ;;
  if turn self =? 0 then
    ret (mkGameState (rounds self) (players self) 1)
  else
    ret (mkGameState (rounds self + 1) (players self) 0).

(** ** The game section of the main block *)

(** show_summary, reading the game state it is given. *)
Definition show_summary (end_ : bool) (game_state : GameState) : M unit :=
  print [Str (if end_ then "===END SUMMARY===" else "===ROUND SUMMARY===")] ;;
  (if negb end_ then
     print [Str "Round: "; Int (rounds game_state)] ;;
     next <- py_index (players game_state) (turn game_state) ;;
     next_name <- get_username next ;;
     print [Str "Next Turn: "; Str next_name]
   else ret tt) ;;
  p0 <- py_index (players game_state) 0 ;;
  name0 <- get_username p0 ;;
  q0 <- py_index (players game_state) 0 ;;
  score0 <- get_score q0 ;;
  print [Str name0; Str "'s Score: "; Int score0] ;;
  p1 <- py_index (players game_state) 1 ;;
  name1 <- get_username p1 ;;
  q1 <- py_index (players game_state) 1 ;;
  score1 <- get_score q1 ;;
  print [Str name1; Str "'s Score: "; Int score1].

(** The main game loop: [while game_state.rounds <= 5]. *)
Fixpoint game_loop (fuel : nat) (game_state : GameState) : M GameState :=
  match fuel with
  | O => out_of_fuel
  | S fuel' =>
      if rounds game_state <=? 5 then
        show_summary false game_state ;;
        input ("(Enter) Next Round" ++ NL) ;;
        game_state' <- play_round game_state ;;
        game_loop fuel' game_state'
      else ret game_state
  end.

(** The main block from the construction of the game state to the
    report of the winner; [fuel] bounds each of the two loops.  The
    value is the final game state and the winner. *)
Definition main_game (fuel : nat) (player_one player_two : loc)
  : M (GameState * loc) :=
  game_state <- game_loop fuel (GameState_init [player_one; player_two]) ;;
  draw <- is_draw game_state ;;
  (if draw then
     show_summary true game_state ;;
     play_draw fuel game_state
   else ret tt) ;;
  show_summary true game_state ;;
  p0 <- py_index (players game_state) 0 ;;
  score0 <- get_score p0 ;;
  p1 <- py_index (players game_state) 1 ;;
  score1 <- get_score p1 ;;
  winner <- (if score0 >? score1
             then py_index (players game_state) 0
             else py_index (players game_state) 1) ;;
  print [Str (NL ++ "===RESULTS===")] ;;
  winner_name <- get_username winner ;;
  print [Str "Winner: "; Str winner_name] ;;
  winner_score <- get_score winner ;;
  print [Str "Score: "; Int winner_score] ;;
  ret (game_state, winner).

(** ** Login *)

(** [with SQLManager() as cur: body]: the connection is opened, the
    body runs, the transaction is committed when the body did not
    raise, and the connection is closed. *)
Definition with_SQLManager {A : Type} (body : M A) : M A :=
  fun w =>
    match (emit (DbConnect "dicegame.db") ;; body) w with
    | (Ok a, w1) => (emit DbCommit ;; emit DbClose ;; ret a) w1
    | (Raise e, w1) => (emit DbClose ;; raise e) w1
    | (OutOfFuel, w1) => (OutOfFuel, w1)
    end.

(** The SELECT of [authenticate] followed by fetchall(): the password
    column of the records of the given user. *)
Definition select_password (name : string) : M (list string) :=
  emit (DbExecute "SELECT password FROM users WHERE username=?" name) ;;
  fun w => (Ok (map snd (filter (fun r => String.eqb (fst r) name) (users w))), w).

(** [[True for u in not_allowed if u.username == username]] *)
Fixpoint matching (not_allowed : list loc) (name : string) : M (list bool) :=
  match not_allowed with
  | [] => ret []
  | u :: rest =>
      u_name <- get_username u ;;
      found <- matching rest name ;;
      ret (if String.eqb u_name name then true :: found else found)
  end.

Section Login.

(** hashlib.sha256(s.encode()).digest(), as a function of s. *)
Variable sha256 : string -> string.

(** The loop of [authenticate], up to its [break]; it runs at most
    [fuel] iterations. *)
Fixpoint authenticate_loop (fuel : nat) (not_allowed : list loc) : M loc :=
  match fuel with
  | O => out_of_fuel
  | S fuel' =>
      name <- input "Username: " ;;
      found <- matching not_allowed name ;;
      if 0 <? Z.of_nat (List.length found) then
        print [Str "Username Added Already"] ;;
        authenticate_loop fuel' not_allowed
      else
        required_password <- with_SQLManager (select_password name) ;;
        match required_password with
        | [] =>
            print [Str ("Invalid Username" ++ NL)] ;;
            authenticate_loop fuel' not_allowed
        | required :: _ =>
            user_password <- input "Password: " ;;
            let password_encrypted := sha256 user_password in
            if String.eqb password_encrypted required then
              Player_init name
            else
              print [Str ("Incorrect Password" ++ NL)] ;;
              authenticate_loop fuel' not_allowed
        end
  end.

(** authenticate *)
Definition authenticate (fuel : nat) (not_allowed : list loc) : M loc :=
  player <- authenticate_loop fuel not_allowed ;;
  print [Str "Success"] ;;
  ret player.

End Login.

(** ** The database *)

(** A parameter of a statement. *)
Inductive SqlValue : Type :=
| SqlText (s : string)    (* a str *)
| SqlBytes (b : string)   (* a bytes object *)
| SqlInt (z : Z).         (* an int *)

(** The part of the database beside the table [users]: the table
    [scores], one (player_id, score) pair per record in the order of
    insertion, and the statements executed so far with their
    parameters, newest first.  It is an argument and a result of the
    functions that use the database.  The rowid of a record of [users]
    is its position in the table, counted from 1: records are only
    ever added. *)
Record Database : Type := mkDatabase {
  scores : list (Z * Z);
  executed : list (string * list SqlValue)
}.

(** cur.execute(sql, params), as far as the log of statements goes. *)
Definition execute (sql : string) (params : list SqlValue) (db : Database)
  : M Database :=
  ret (mkDatabase (scores db) ((sql, params) :: executed db)).

(** The effect of the INSERT of [create_user] on the table [users]:
    the column username is UNIQUE, and the insertion of a name that is
    in the table fails (the value is [false], for the IntegrityError
    that the caller catches). *)
Definition insert_user (name password : string) : M bool :=
  fun w =>
    if existsb (fun r => String.eqb (fst r) name) (users w)
    then (Ok false, w)
    else (Ok true,
          mkWorld (entropy w) (draws w) (stdin w) (trace w) (heap w)
                  (next_loc w) (users w ++ [(name, password)])%list).

(** The rowids, from [first] on, of the records of a name. *)
Fixpoint rowids_from (first : Z) (name : string)
    (table : list (string * string)) : list Z :=
  match table with
  | [] => []
  | r :: rest =>
      if String.eqb (fst r) name
      then first :: rowids_from (first + 1) name rest
      else rowids_from (first + 1) name rest
  end.

(** The rows of [SELECT rowid FROM users WHERE username=?]. *)
Definition select_rowid (name : string) : M (list Z) :=
  fun w => (Ok (rowids_from 1 name (users w)), w).

(** The record of [users] with a rowid. *)
Definition row_at (rowid : Z) (table : list (string * string))
  : option (string * string) :=
  if 1 <=? rowid then nth_error table (Z.to_nat (rowid - 1)) else None.

(** The rows of [SELECT username FROM users WHERE rowid=?]. *)
Definition select_username (rowid : Z) : M (list string) :=
  fun w => (Ok (match row_at rowid (users w) with
                | Some r => [fst r]
                | None => []
                end), w).

(** The effect of the INSERT of [save_score] on the table [scores]. *)
Definition insert_score (record : Z * Z) (db : Database) : Database :=
  mkDatabase (scores db ++ [record])%list (executed db).

(** The horizontal tab written as a backslash escape in the source. *)
Definition TAB : string := String (ascii_of_nat 9) EmptyString.

(** The text the format field [{:10}] makes of a str: the text, filled
    with spaces on the right up to a width of 10. *)
Definition format_10 (s : string) : string :=
  s ++ string_of_list_ascii (repeat " "%char (10 - String.length s)).

(** create_tables: the tables are lists, which exist from the start. *)
Definition create_tables (db : Database) : M Database :=
  with_SQLManager
    (db1 <- execute
       "CREATE TABLE IF NOT EXISTS users (username TEXT UNIQUE, password TEXT)"
       [] db ;;
     execute
       "CREATE TABLE IF NOT EXISTS scores (player_id INTEGER, score INTEGER)"
       [] db1).

(** save_score *)
Definition save_score (player : loc) (db : Database) : M Database :=
  with_SQLManager
    (name <- get_username player ;;
     db1 <- execute "SELECT rowid FROM users WHERE username=?" [SqlText name] db ;;
     rows <- select_rowid name ;;
     player_id <- py_index rows 0 ;;
     player_score <- get_score player ;;
     db2 <- execute "INSERT INTO scores VALUES (?, ?)"
              [SqlInt player_id; SqlInt player_score] db1 ;;
     ret (insert_score (player_id, player_score) db2)).

(** The loop of [display_top_scores] over the records it fetched:
    each name goes to the front of the list. *)
Fixpoint collect_usernames (records : list (Z * Z))
    (username_scores : list (string * Z)) (db : Database)
  : M (list (string * Z) * Database) :=
  match records with
  | [] => ret (username_scores, db)
  | score_record :: rest =>
      db1 <- execute "SELECT username FROM users WHERE rowid=?"
               [SqlInt (fst score_record)] db ;;
      rows <- select_username (fst score_record) ;;
      name <- py_index rows 0 ;;
      collect_usernames rest ((name, snd score_record) :: username_scores) db1
  end.

(** The loop of [display_top_scores] that writes the lines. *)
Fixpoint print_scores (username_scores : list (string * Z)) : M unit :=
  match username_scores with
  | [] => ret tt
  | line :: rest =>
      print [Str (format_10 (fst line)); Str TAB; Int (snd line)] ;;
      print_scores rest
  end.

Section Store.

(** hashlib.sha256(s.encode()).digest(), as a function of s. *)
Variable sha256 : string -> string.

(** The order in which [ORDER BY score] returns the records of the
    table [scores]; the order among records of equal score is left to
    the database. *)
Variable order_by_score : list (Z * Z) -> list (Z * Z).

(** create_user *)
Definition create_user (db : Database) : M Database :=
  name <- input "Enter Username: " ;;
  typed <- input "Enter Password: " ;;
  let password := sha256 typed in
  with_SQLManager
    (db1 <- execute "INSERT INTO users VALUES (?, ?)"
              [SqlText name; SqlBytes password] db ;;
     inserted <- insert_user name password ;;
     if inserted then ret db1
     else
       print [Str "Username already used."] ;;
       ret db1).

(** display_top_scores *)
Definition display_top_scores (db : Database) : M Database :=
  fetched <- with_SQLManager
    (db1 <- execute "SELECT * FROM scores ORDER BY score LIMIT 5" [] db ;;
     collect_usernames (firstn 5 (order_by_score (scores db))) [] db1) ;;
  print [Str (NL ++ "===TOP SCORES===")] ;;
  print_scores (fst fetched) ;;
  ret (snd fetched).

(** The loop of the signup section; it runs at most [fuel]
    iterations. *)
Fixpoint signup_loop (fuel : nat) (choice : string) (db : Database)
  : M Database :=
  match fuel with
  | O => out_of_fuel
  | S fuel' =>
      if String.eqb choice "y" then
        db1 <- create_user db ;;
        choice' <- input (NL ++ "Do you want to signup again (y/n)? ") ;;
        signup_loop fuel' choice' db1
      else if String.eqb choice "n" then ret db
      else
        choice' <- input (NL ++ "Do you want to signup again (y/n)? ") ;;
        signup_loop fuel' choice' db
  end.

(** The signup section of the main block. *)
Definition signup (fuel : nat) (db : Database) : M Database :=
  print [Str (NL ++ "===SIGNUP===")] ;;
  choice <- input "Do you want to signup (y/n)? " ;;
  signup_loop fuel choice db.

(** The main block; [fuel] bounds each of its loops. *)
Definition main (fuel : nat) (db : Database) : M Database :=
  db1 <- create_tables db ;;
  print [Str "Welcome to the Dice Game"] ;;
  db2 <- signup fuel db1 ;;
  print [Str (NL ++ "===Player 1 Login===")] ;;
  player_one <- authenticate sha256 fuel [] ;;
  print [Str (NL ++ "===Player 2 Login===")] ;;
  player_two <- authenticate sha256 fuel [player_one] ;;
  print [Str NL] ;;
  game <- main_game fuel player_one player_two ;;
  db3 <- save_score (snd game) db2 ;;
  display_top_scores db3.

End Store.

(** ** Definitions used by the statements *)

(** The value the next call of [_roll_dice] returns in a world. *)
Definition next_roll (w : World) : Z := randint_of 1 7 (entropy w (draws w)).

(** What one call of [_roll_dice] that returns [r] writes, newest first. *)
Definition roll_trace (r : Z) : list Event :=
  Print [Str "You rolled: "; Int r; Str NL] :: Print [Str "."]
  :: repeat (Print [Str "."]) 9 ++ [Print [Str "Rolling"]].

(** The world after one call of [_roll_dice]. *)
Definition rolled (w : World) : World :=
  mkWorld (entropy w) (S (draws w)) (stdin w)
          (roll_trace (next_roll w) ++ trace w)
          (heap w) (next_loc w) (users w).

(** The world after [print(items)]. *)
Definition printed (items : list Item) (w : World) : World :=
  mkWorld (entropy w) (draws w) (stdin w) (Print items :: trace w)
          (heap w) (next_loc w) (users w).

(** The three stages of the scoring pipeline as the specification words
    them, with the extra roll of a double as an argument. *)
Definition double_stage (roll1 roll2 extra : Z) : Z :=
  if roll1 =? roll2 then roll1 + roll2 + extra else roll1 + roll2.

Definition even_stage (subtotal : Z) : Z :=
  if Z.even subtotal then subtotal + 10 else subtotal.

Definition odd_stage (subtotal : Z) : Z :=
  if Z.odd subtotal then Z.max 0 (subtotal - 5) else subtotal.

Definition score_round_spec (roll1 roll2 extra : Z) : Z :=
  odd_stage (even_stage (double_stage roll1 roll2 extra)).

(** A world at the start of a run: nothing drawn, nothing written, no
    object allocated. *)
Definition start_world (raws : nat -> Z) (lines : list string)
    (table : list (string * string)) : World :=
  mkWorld raws 0 lines [] (fun _ => mkPlayer "" 0) 0%nat table.

(** A generator whose raw values are all [raw]. *)
Definition constant (raw : Z) : nat -> Z := fun _ => raw.

(** The world after the double stage on two rolls. *)
Definition doubled (roll1 roll2 : Z) (w : World) : World :=
  if roll1 =? roll2 then rolled (printed [Str "!!DOUBLE!!"] w) else w.

(** The subtotal the double stage computes in a world. *)
Definition subtotal_of (roll1 roll2 : Z) (w : World) : Z :=
  double_stage roll1 roll2 (next_roll w).

(** The value of the [k]-th roll from now on. *)
Definition roll_at (w : World) (k : nat) : Z :=
  randint_of 1 7 (entropy w (k + draws w)).

(** The score of a round played in a world: the pipeline on the next
    two rolls, with the roll after them as the extra roll of a double. *)
Definition round_score (w : World) : Z :=
  score_round_spec (roll_at w 0) (roll_at w 1) (roll_at w 2).

(** The number of rolls of a round played in a world. *)
Definition round_draws (w : World) : nat :=
  if roll_at w 0 =? roll_at w 1 then 3%nat else 2%nat.

(** The game state after one more turn. *)
Definition advance (gs : GameState) : GameState :=
  if turn gs =? 0
  then mkGameState (rounds gs) (players gs) 1
  else mkGameState (rounds gs + 1) (players gs) 0.

(** The game states the program builds: two distinct player objects,
    and a turn that is 0 or 1. *)
Definition two_players (gs : GameState) (a b : loc) : Prop :=
  players gs = [a; b] /\ a <> b /\ (turn gs = 0 \/ turn gs = 1).

(** The player object whose turn it is, and the other one. *)
Definition current_of (gs : GameState) (a b : loc) : loc :=
  if turn gs =? 0 then a else b.

Definition other_of (gs : GameState) (a b : loc) : loc :=
  if turn gs =? 0 then b else a.

(** The game states reached from a new game by calls of [play_round]
    that return, in any worlds. *)
Inductive reachable : GameState -> Prop :=
| reachable_init (a b : loc) :
    a <> b -> reachable (GameState_init [a; b])
| reachable_round (gs gs' : GameState) (w w' : World) :
    reachable gs -> play_round gs w = (Ok gs', w') -> reachable gs'.

(** [n] calls of [play_round] in a row. *)
Fixpoint play_rounds (n : nat) (gs : GameState) : M GameState :=
  match n with
  | O => ret gs
  | S n' => gs' <- play_round gs ;; play_rounds n' gs'
  end.

(** The worlds [w'] that differ from [w] in what was written only. *)
Definition wrote_only (w w' : World) : Prop :=
  entropy w' = entropy w /\ draws w' = draws w /\ stdin w' = stdin w
  /\ heap w' = heap w /\ next_loc w' = next_loc w /\ users w' = users w
  /\ exists written, trace w' = (written ++ trace w)%list.

(** The store after one iteration of the tie break in a world: each of
    the two players gets one roll added. *)
Definition tiebreak_heap (w : World) (a b : loc) : loc -> Player :=
  heap_set
    (heap_set (heap w) a
       (mkPlayer (username (heap w a)) (score (heap w a) + roll_at w 0)))
    b (mkPlayer (username (heap w b)) (score (heap w b) + roll_at w 1)).

(** A new game between the player objects at locations 0 and 1. *)
Definition new_game : GameState := GameState_init [0%nat; 1%nat].

(** The round number of a game in progress or just over: at most 5, or
    6 with the turn back at the first player. *)
Definition round_in_range (gs : GameState) : Prop :=
  rounds gs <= 5 \/ (rounds gs = 6 /\ turn gs = 0).

(** The number of turns left to play in the five rounds. *)
Definition turns_left (gs : GameState) : nat :=
  Z.to_nat (2 * (6 - rounds gs) - turn gs).

(** A generator that counts: its raw values are 0, 1, 2, ... *)
Definition counting : nat -> Z := Z.of_nat.

(** A world for a whole game: the counting generator and ten lines of
    input, one for each turn. *)
Definition game_world : World :=
  start_world counting (repeat EmptyString 10) [].

(** The list the comprehension of [authenticate] builds in a world. *)
Definition found_in (w : World) (not_allowed : list loc) (name : string)
  : list bool :=
  map (fun _ => true)
      (filter (fun u => String.eqb (username (heap w u)) name) not_allowed).

(** A name is taken when it is the name of one of the given players. *)
Definition name_taken (w : World) (not_allowed : list loc) (name : string) : Prop :=
  exists u, In u not_allowed /\ username (heap w u) = name.

(** The world after a line was read at the username prompt and refused
    as the name of a player already logged in. *)
Definition refused (rest : list string) (w : World) : World :=
  mkWorld (entropy w) (draws w) rest
          (Print [Str "Username Added Already"] :: Prompt "Username: " :: trace w)
          (heap w) (next_loc w) (users w).

(** The events of one use of the database by [authenticate] for a
    name, newest first. *)
Definition password_query (name : string) : list Event :=
  [DbClose; DbCommit;
   DbExecute "SELECT password FROM users WHERE username=?" name;
   DbConnect "dicegame.db"].

(** A stand-in for the digest in examples: it marks the password. *)
Definition mark_digest (s : string) : string := "#" ++ s.

(** A session for the login of the second player: alice is logged
    in at location 0; the user types her name again, then logs in as
    bob. *)
Definition second_login_world : World :=
  mkWorld (constant 0) 0 ["alice"; "bob"; "pw2"] []
          (fun _ => mkPlayer "alice" 0) 1%nat
          [("alice", mark_digest "pw1"); ("bob", mark_digest "pw2")].

(** A computation that only adds to what was written before. *)
Definition grows {A : Type} (m : M A) : Prop :=
  forall w, exists written, trace (world (m w)) = (written ++ trace w)%list.

(** A generator whose first thirty raw values are 0, so that every
    turn of the five rounds rolls a double of ones with an extra one,
    and that counts from there on. *)
Definition tied_then_counting (n : nat) : Z :=
  if (n <? 30)%nat then 0 else Z.of_nat n.

(** A world in which the five rounds end in a draw. *)
Definition tied_world : World :=
  start_world tied_then_counting (repeat EmptyString 10) [].

(** The records of a name in the table of users, as the SELECT of
    [authenticate] finds them. *)
Definition passwords_of (name : string) (table : list (string * string))
  : list string :=
  map snd (filter (fun r => String.eqb (fst r) name) table).

(** No two records of the table of users have the same name. *)
Definition unique_names (table : list (string * string)) : Prop :=
  NoDup (map fst table).

(** The world after the login loop refused a name that is not in the
    table of users: one line read, one use of the database. *)
Definition unknown_name (name : string) (rest : list string) (w : World) : World :=
  mkWorld (entropy w) (draws w) rest
          (Print [Str ("Invalid Username" ++ NL)]
           :: password_query name ++ Prompt "Username: " :: trace w)%list
          (heap w) (next_loc w) (users w).

(** The world after the login loop refused a password: two lines
    read, one use of the database. *)
Definition wrong_password (name : string) (rest : list string) (w : World) : World :=
  mkWorld (entropy w) (draws w) rest
          (Print [Str ("Incorrect Password" ++ NL)] :: Prompt "Password: "
           :: password_query name ++ Prompt "Username: " :: trace w)%list
          (heap w) (next_loc w) (users w).

(** The world after a login: two lines read, one use of the database,
    and a new player object of that name with score 0. *)
Definition logged_in (name : string) (rest : list string) (w : World) : World :=
  mkWorld (entropy w) (draws w) rest
          (Print [Str "Success"] :: Prompt "Password: "
           :: password_query name ++ Prompt "Username: " :: trace w)%list
          (heap_set (heap w) (next_loc w) (mkPlayer name 0))
          (S (next_loc w)) (users w).

(** What a login that returned the player [p] in the world [w'] has
    done from the world [w]. *)
Definition login_result (sha256 : string -> string) (not_allowed : list loc)
    (w : World) (p : loc) (w' : World) : Prop :=
  exists name typed read,
    stdin w = (read ++ name :: typed :: stdin w')%list
    /\ In (name, sha256 typed) (users w)
    /\ ~ name_taken w not_allowed name
    /\ p = next_loc w
    /\ heap w' = heap_set (heap w) p (mkPlayer name 0)
    /\ next_loc w' = S (next_loc w)
    /\ users w' = users w /\ entropy w' = entropy w /\ draws w' = draws w.

(** A session at the login of the second player, alice being logged
    in at location 0, with the given lines of input. *)
Definition login_world (lines : list string) : World :=
  mkWorld (constant 0) 0 lines []
          (fun _ => mkPlayer "alice" 0) 1%nat
          [("alice", mark_digest "pw1"); ("bob", mark_digest "pw2")].


(** The database after the INSERT of [create_user] was executed. *)
Definition insert_logged (name password : string) (db : Database) : Database :=
  mkDatabase (scores db)
             (("INSERT INTO users VALUES (?, ?)", [SqlText name; SqlBytes password])
              :: executed db).

(** The world after [create_user] added a user: two lines read, the
    record at the end of the table. *)
Definition user_added (name password : string) (rest : list string) (w : World)
  : World :=
  mkWorld (entropy w) (draws w) rest
          (DbClose :: DbCommit :: DbConnect "dicegame.db"
           :: Prompt "Enter Password: " :: Prompt "Enter Username: " :: trace w)
          (heap w) (next_loc w) (users w ++ [(name, password)])%list.

(** The world after [create_user] was refused a name: two lines read,
    the message written, the table as it was. *)
Definition user_refused (rest : list string) (w : World) : World :=
  mkWorld (entropy w) (draws w) rest
          (DbClose :: DbCommit :: Print [Str "Username already used."]
           :: DbConnect "dicegame.db"
           :: Prompt "Enter Password: " :: Prompt "Enter Username: " :: trace w)
          (heap w) (next_loc w) (users w).

(** A world with an empty table of users and the given lines of
    input. *)
Definition signup_world (lines : list string) : World :=
  start_world (constant 0) lines [].

(** A database with no score and no statement. *)
Definition empty_database : Database := mkDatabase [] [].

(** A stand-in for [ORDER BY score] in examples: insertion sort. *)
Fixpoint insert_by_score (r : Z * Z) (l : list (Z * Z)) : list (Z * Z) :=
  match l with
  | [] => [r]
  | x :: rest =>
      if snd r <=? snd x then r :: l else x :: insert_by_score r rest
  end.

Fixpoint sort_by_score (l : list (Z * Z)) : list (Z * Z) :=
  match l with
  | [] => []
  | r :: rest => insert_by_score r (sort_by_score rest)
  end.

(** The world after the signup loop asked again and read a line. *)
Definition asked_again (rest : list string) (w : World) : World :=
  mkWorld (entropy w) (draws w) rest
          (Prompt (NL ++ "Do you want to signup again (y/n)? ") :: trace w)
          (heap w) (next_loc w) (users w).

(** The name in the record of [users] with a rowid (the empty text
    when there is none). *)
Definition name_of_id (table : list (string * string)) (rowid : Z) : string :=
  match row_at rowid table with
  | Some r => fst r
  | None => EmptyString
  end.

(** The line [display_top_scores] writes for a record of [scores]. *)
Definition score_line (table : list (string * string)) (record : Z * Z) : Event :=
  Print [Str (format_10 (name_of_id table (fst record))); Str TAB;
         Int (snd record)].

(** Every record of [scores] refers to a record of [users]. *)
Definition valid_ids (table : list (string * string)) (records : list (Z * Z))
  : Prop :=
  Forall (fun r => 1 <= fst r <= Z.of_nat (List.length table)) records.

(** The order of two records of [scores] by their score. *)
Definition by_score (r1 r2 : Z * Z) : Prop := snd r1 <= snd r2.

(** What [ORDER BY score] promises of the order of the result: the
    same records, the lowest score first. *)
Definition sorts_by_score (order : list (Z * Z) -> list (Z * Z)) : Prop :=
  forall l, Permutation (order l) l /\ StronglySorted by_score (order l).

(** The database after [save_score] saved a score under a rowid. *)
Definition score_saved (name : string) (rowid player_score : Z) (db : Database)
  : Database :=
  mkDatabase (scores db ++ [(rowid, player_score)])%list
             (("INSERT INTO scores VALUES (?, ?)",
               [SqlInt rowid; SqlInt player_score])
              :: ("SELECT rowid FROM users WHERE username=?", [SqlText name])
              :: executed db).

(** The world after a use of the database that was committed, and
    after one that raised and was not. *)
Definition committed (w : World) : World :=
  mkWorld (entropy w) (draws w) (stdin w)
          (DbClose :: DbCommit :: DbConnect "dicegame.db" :: trace w)
          (heap w) (next_loc w) (users w).

Definition not_committed (w : World) : World :=
  mkWorld (entropy w) (draws w) (stdin w)
          (DbClose :: DbConnect "dicegame.db" :: trace w)
          (heap w) (next_loc w) (users w).

(** The database after the lookups of [display_top_scores] for some
    records. *)
Definition lookups_logged (records : list (Z * Z)) (db : Database) : Database :=
  fold_left
    (fun d r => mkDatabase (scores d)
                  (("SELECT username FROM users WHERE rowid=?", [SqlInt (fst r)])
                   :: executed d))
    records db.

(** The database after the SELECT of [display_top_scores]. *)
Definition top_logged (db : Database) : Database :=
  mkDatabase (scores db)
             (("SELECT * FROM scores ORDER BY score LIMIT 5", []) :: executed db).

(** A world with alice and bob registered, the player object of bob
    at location 0 with a score of 24. *)
Definition scores_world : World :=
  mkWorld (constant 0) 0 [] []
          (fun _ => mkPlayer "bob" 24) 1%nat
          [("alice", mark_digest "pw1"); ("bob", mark_digest "pw2")].

(** The world after some events, newest first, were written. *)
Definition wrote (events : list Event) (w : World) : World :=
  mkWorld (entropy w) (draws w) (stdin w) (events ++ trace w)%list
          (heap w) (next_loc w) (users w).

(** The name and score [display_top_scores] collects for a record. *)
Definition named (table : list (string * string)) (record : Z * Z)
  : string * Z :=
  (name_of_id table (fst record), snd record).

(** The line [print_scores] writes for a name and a score. *)
Definition line_of (line : string * Z) : Event :=
  Print [Str (format_10 (fst line)); Str TAB; Int (snd line)].

(** A run that did not raise IndexError. *)
Definition no_IndexError {A : Type} (r : Res A * World) : Prop :=
  result r <> Raise IndexError.

(** A session of the whole program: alice and bob sign up and log
    in, and a line is typed for each of the ten turns. *)
Definition session_world : World :=
  start_world counting
    (["y"; "alice"; "pw1"; "y"; "bob"; "pw2"; "n";
      "alice"; "pw1"; "bob"; "pw2"] ++ repeat EmptyString 10)%list
    [].

(** * Properties *)

(** ** The dice *)

Lemma _roll_dice_run (w : World) : _roll_dice w = (Ok (next_roll w), rolled w).
Proof. reflexivity. Qed.

Lemma randint_of_range (a b raw : Z) :
  a <= b -> a <= randint_of a b raw <= b.
Proof.
  intros Hab. unfold randint_of.
  pose proof (Z.mod_pos_bound raw (b - a + 1)). lia.
Qed.

Lemma next_roll_range (w : World) : 1 <= next_roll w <= 7.
Proof. apply randint_of_range. lia. Qed.

(** The dice source returns an integer from 1 to 7, and each of these
    values is returned in some world. *)
Lemma _roll_dice_range (w : World) :
  exists r, result (_roll_dice w) = Ok r /\ 1 <= r <= 7.
Proof.
  exists (next_roll w). rewrite _roll_dice_run. split; [reflexivity|].
  apply next_roll_range.
Qed.

Lemma _roll_dice_onto (r : Z) (lines : list string) :
  1 <= r <= 7 ->
  result (_roll_dice (start_world (constant (r - 1)) lines [])) = Ok r.
Proof.
  intros Hr. rewrite _roll_dice_run.
  unfold result, next_roll, randint_of, start_world, constant; cbn [fst entropy draws].
  change (7 - 1 + 1) with 7. rewrite Z.mod_small by lia. f_equal. lia.
Qed.

(** C3 (failing input): the claim says every roll is in [1,6]; in the
    world whose next raw value is 6 the call [random.randint(1, 7)] of
    [_roll_dice] yields 7, which is outside that range. *)
Theorem C3_roll_dice_returns_seven :
  result (_roll_dice (start_world (constant 6) [] [])) = Ok 7
  /\ (7 <=? 6) = false.
Proof. split; reflexivity. Qed.

(** ** The scoring pipeline *)

Lemma mod2_eqb_even (z : Z) : (z mod 2 =? 0) = Z.even z.
Proof. rewrite Zmod_even. destruct (Z.even z); reflexivity. Qed.

Lemma _check_double_run (roll1 roll2 : Z) (w : World) :
  _check_double roll1 roll2 w
  = (Ok (subtotal_of roll1 roll2 w), doubled roll1 roll2 w).
Proof.
  unfold _check_double, subtotal_of, double_stage, doubled.
  destruct (roll1 =? roll2); reflexivity.
Qed.

Lemma _check_even_run (score : Z) (w : World) :
  _check_even score w
  = if Z.even score
    then (Ok (score + 10), printed [Str "Add 10 for even"] w)
    else (Ok score, w).
Proof.
  unfold _check_even. rewrite mod2_eqb_even.
  destruct (Z.even score); reflexivity.
Qed.

Lemma _check_odd_run (score : Z) (w : World) :
  _check_odd score w
  = if Z.odd score
    then (Ok (Z.max 0 (score - 5)), printed [Str "Subtract 5 for odd"] w)
    else (Ok score, w).
Proof.
  unfold _check_odd. rewrite mod2_eqb_even, <- Z.negb_even.
  destruct (Z.even score); cbn [negb]; [reflexivity|].
  unfold bind, print, emit, printed, world, ret; cbn [snd].
  destruct (Z.ltb_spec (score - 5) 0).
  - rewrite Z.max_l by lia. reflexivity.
  - rewrite Z.max_r by lia. reflexivity.
Qed.

Lemma even_plus_10 (z : Z) : Z.even (z + 10) = Z.even z.
Proof. rewrite Z.even_add. destruct (Z.even z); reflexivity. Qed.

(** The even stage followed by the odd stage. *)
Lemma even_then_odd_run (score : Z) (w : World) :
  (even_score <- _check_even score ;; _check_odd even_score) w
  = if Z.even score
    then (Ok (score + 10), printed [Str "Add 10 for even"] w)
    else (Ok (Z.max 0 (score - 5)), printed [Str "Subtract 5 for odd"] w).
Proof.
  unfold bind. rewrite _check_even_run.
  destruct (Z.even score) eqn:E.
  - rewrite _check_odd_run, <- Z.negb_even, even_plus_10, E. reflexivity.
  - rewrite _check_odd_run, <- Z.negb_even, E. reflexivity.
Qed.

Lemma _calculate_scores_run (roll1 roll2 : Z) (w : World) :
  _calculate_scores roll1 roll2 w
  = let subtotal := subtotal_of roll1 roll2 w in
    let w1 := doubled roll1 roll2 w in
    if Z.even subtotal
    then (Ok (subtotal + 10), printed [Str "Add 10 for even"] w1)
    else (Ok (Z.max 0 (subtotal - 5)), printed [Str "Subtract 5 for odd"] w1).
Proof.
  unfold _calculate_scores, bind at 1. rewrite _check_double_run.
  cbv zeta. rewrite <- even_then_odd_run.
  unfold bind. destruct (_check_even _ _) as [[a| |] w1]; try reflexivity.
  destruct (_check_odd a w1) as [[b| |] w2]; reflexivity.
Qed.

Lemma score_round_spec_cases (roll1 roll2 extra : Z) :
  score_round_spec roll1 roll2 extra
  = let subtotal := double_stage roll1 roll2 extra in
    if Z.even subtotal then subtotal + 10 else Z.max 0 (subtotal - 5).
Proof.
  unfold score_round_spec, even_stage, odd_stage. cbv zeta.
  destruct (Z.even (double_stage roll1 roll2 extra)) eqn:E.
  - rewrite <- Z.negb_even, even_plus_10, E. reflexivity.
  - rewrite <- Z.negb_even, E. reflexivity.
Qed.

Lemma _calculate_scores_result (roll1 roll2 : Z) (w : World) :
  result (_calculate_scores roll1 roll2 w)
  = Ok (score_round_spec roll1 roll2 (next_roll w)).
Proof.
  rewrite _calculate_scores_run, score_round_spec_cases. cbv zeta.
  unfold subtotal_of. destruct (Z.even _); reflexivity.
Qed.

Lemma _calculate_scores_draws (roll1 roll2 : Z) (w : World) :
  draws (world (_calculate_scores roll1 roll2 w))
  = if roll1 =? roll2 then S (draws w) else draws w.
Proof.
  rewrite _calculate_scores_run. cbv zeta. unfold doubled.
  destruct (Z.even _), (roll1 =? roll2); reflexivity.
Qed.

(** C1: on any two rolls the value of [_calculate_scores] is the
    composition of the double, even and odd stages of the
    specification, where the extra roll is the next roll of the dice
    and is drawn on a double only; on (3, 3) with extra roll 5 the
    value is 6. *)
Theorem C1_score_round_is_three_stages :
  (forall roll1 roll2 w,
      result (_calculate_scores roll1 roll2 w)
      = Ok (odd_stage (even_stage (double_stage roll1 roll2 (next_roll w)))))
  /\ (forall roll1 roll2 w,
      draws (world (_calculate_scores roll1 roll2 w))
      = if roll1 =? roll2 then S (draws w) else draws w)
  /\ (forall w, next_roll w = 5 -> result (_calculate_scores 3 3 w) = Ok 6).
Proof.
  split; [|split].
  - intros. apply _calculate_scores_result.
  - intros. apply _calculate_scores_draws.
  - intros w H. rewrite _calculate_scores_result, H. reflexivity.
Qed.

Lemma C1_score_round_is_three_stages_witness :
  next_roll (start_world (constant 4) [] []) = 5
  /\ result (_calculate_scores 3 3 (start_world (constant 4) [] [])) = Ok 6.
Proof.
  split; [reflexivity|].
  apply (proj2 (proj2 C1_score_round_is_three_stages)). reflexivity.
Defined.

(** The worked examples of the rules. *)
Example score_round_3_4 (w : World) : result (_calculate_scores 3 4 w) = Ok 2.
Proof. rewrite _calculate_scores_result. reflexivity. Qed.

Example score_round_2_4 (w : World) : result (_calculate_scores 2 4 w) = Ok 16.
Proof. rewrite _calculate_scores_result. reflexivity. Qed.

Lemma even_mod2 (z : Z) : Z.even z = true -> z mod 2 = 0.
Proof. intros E. rewrite Zmod_even, E. reflexivity. Qed.

Lemma odd_mod2 (z : Z) : Z.even z = false -> z mod 2 = 1.
Proof. intros E. rewrite Zmod_even, E. reflexivity. Qed.

(** C6: after the double stage exactly one adjustment is made: on an
    even subtotal 10 is added and only the message of the even rule is
    written, on an odd subtotal 5 is subtracted with a floor of 0 and
    only the message of the odd rule is written; the same holds of the
    two stages on any integer, and the odd stage leaves an even number
    plus 10 as it is. *)
Theorem C6_exactly_one_adjustment :
  (forall roll1 roll2 w,
      let subtotal := subtotal_of roll1 roll2 w in
      let w1 := doubled roll1 roll2 w in
      (subtotal mod 2 = 0
       /\ _calculate_scores roll1 roll2 w
          = (Ok (subtotal + 10), printed [Str "Add 10 for even"] w1))
      \/ (subtotal mod 2 = 1
          /\ _calculate_scores roll1 roll2 w
             = (Ok (Z.max 0 (subtotal - 5)), printed [Str "Subtract 5 for odd"] w1)))
  /\ (forall score w,
      (score mod 2 = 0
       /\ (even_score <- _check_even score ;; _check_odd even_score) w
          = (Ok (score + 10), printed [Str "Add 10 for even"] w))
      \/ (score mod 2 = 1
          /\ (even_score <- _check_even score ;; _check_odd even_score) w
             = (Ok (Z.max 0 (score - 5)), printed [Str "Subtract 5 for odd"] w)))
  /\ (forall score w,
      score mod 2 = 0 -> _check_odd (score + 10) w = (Ok (score + 10), w)).
Proof.
  split; [|split].
  - intros roll1 roll2 w. cbv zeta. rewrite _calculate_scores_run. cbv zeta.
    destruct (Z.even (subtotal_of roll1 roll2 w)) eqn:E.
    + left. split; [apply even_mod2, E | reflexivity].
    + right. split; [apply odd_mod2, E | reflexivity].
  - intros score w. rewrite even_then_odd_run.
    destruct (Z.even score) eqn:E.
    + left. split; [apply even_mod2, E | reflexivity].
    + right. split; [apply odd_mod2, E | reflexivity].
  - intros score w H. rewrite _check_odd_run, <- Z.negb_even, even_plus_10.
    rewrite Zmod_even in H. destruct (Z.even score); [reflexivity | discriminate].
Qed.

Lemma C6_exactly_one_adjustment_witness :
  6 mod 2 = 0
  /\ _check_odd (6 + 10) (start_world (constant 0) [] [])
     = (Ok (6 + 10), start_world (constant 0) [] []).
Proof.
  split; [reflexivity|].
  apply (proj2 (proj2 C6_exactly_one_adjustment)). reflexivity.
Defined.

Lemma double_stage_lower (roll1 roll2 extra : Z) :
  1 <= roll1 -> 1 <= roll2 -> 1 <= extra -> 2 <= double_stage roll1 roll2 extra.
Proof. intros. unfold double_stage. destruct (roll1 =? roll2); lia. Qed.

(** C7: on two rolls in the range of the dice the round score is not
    negative, whatever the extra roll; the odd stage returns 0 whenever
    the subtraction of 5 would go below 0, and never a negative
    number. *)
Theorem C7_score_round_nonnegative :
  (forall roll1 roll2 w,
      1 <= roll1 <= 7 -> 1 <= roll2 <= 7 ->
      exists s, result (_calculate_scores roll1 roll2 w) = Ok s /\ 0 <= s)
  /\ (forall score w,
      score mod 2 = 1 -> score - 5 < 0 -> result (_check_odd score w) = Ok 0)
  /\ (forall score w,
      score mod 2 = 1 ->
      exists s, result (_check_odd score w) = Ok s /\ 0 <= s).
Proof.
  split; [|split].
  - intros roll1 roll2 w H1 H2. rewrite _calculate_scores_run. cbv zeta.
    pose proof (next_roll_range w) as Hx.
    assert (2 <= subtotal_of roll1 roll2 w)
      by (apply double_stage_lower; lia).
    destruct (Z.even _); eexists; (split; [reflexivity|]); lia.
  - intros score w Hodd Hneg. rewrite _check_odd_run.
    rewrite Zmod_odd in Hodd. destruct (Z.odd score); [|discriminate].
    unfold result; cbn [fst]. f_equal. lia.
  - intros score w Hodd. rewrite _check_odd_run.
    rewrite Zmod_odd in Hodd. destruct (Z.odd score); [|discriminate].
    eexists; split; [reflexivity|]. lia.
Qed.

Lemma C7_score_round_nonnegative_witness :
  (1 <= 1 <= 7 /\ 1 <= 2 <= 7
   /\ exists s, result (_calculate_scores 1 2 (start_world (constant 0) [] [])) = Ok s
                /\ 0 <= s)
  /\ (3 mod 2 = 1 /\ 3 - 5 < 0
      /\ result (_check_odd 3 (start_world (constant 0) [] [])) = Ok 0).
Proof.
  split.
  - split; [lia|]. split; [lia|].
    apply (proj1 C7_score_round_nonnegative); lia.
  - split; [reflexivity|]. split; [lia|].
    apply (proj1 (proj2 C7_score_round_nonnegative)); [reflexivity | lia].
Defined.

(** C10: the round score is an even number on all integer rolls. *)
Theorem C10_round_score_is_even :
  forall roll1 roll2 w,
    exists s, result (_calculate_scores roll1 roll2 w) = Ok s /\ s mod 2 = 0.
Proof.
  intros roll1 roll2 w. rewrite _calculate_scores_run. cbv zeta.
  destruct (Z.even (subtotal_of roll1 roll2 w)) eqn:E;
    eexists; (split; [reflexivity|]); apply even_mod2.
  - rewrite even_plus_10. exact E.
  - destruct (Z.max_spec 0 (subtotal_of roll1 roll2 w - 5)) as [[_ ->]|[_ ->]].
    + rewrite Z.even_sub, E. reflexivity.
    + reflexivity.
Qed.

(** ** Rounds and turns *)

Lemma py_index_pair_0 (a b : loc) (w : World) : py_index [a; b] 0 w = (Ok a, w).
Proof. reflexivity. Qed.

Lemma py_index_pair_1 (a b : loc) (w : World) : py_index [a; b] 1 w = (Ok b, w).
Proof. reflexivity. Qed.

Lemma py_index_current (gs : GameState) (a b : loc) (w : World) :
  two_players gs a b ->
  py_index (players gs) (turn gs) w = (Ok (current_of gs a b), w).
Proof.
  intros (Hp & _ & [Ht|Ht]); unfold current_of; rewrite Hp, Ht; reflexivity.
Qed.

Lemma print_run (items : list Item) (w : World) :
  print items w = (Ok tt, printed items w).
Proof. reflexivity. Qed.

Lemma written_nil (base : list Event) :
  exists written, base = (written ++ base)%list.
Proof. exists []. reflexivity. Qed.

Lemma written_cons (e : Event) (t base : list Event) :
  (exists written, t = (written ++ base)%list) ->
  exists written, e :: t = (written ++ base)%list.
Proof. intros [l ->]. exists (e :: l). reflexivity. Qed.

Lemma written_app (l t base : list Event) :
  (exists written, t = (written ++ base)%list) ->
  exists written, (l ++ t)%list = (written ++ base)%list.
Proof. intros [l' ->]. exists (l ++ l')%list. apply app_assoc. Qed.

Ltac written :=
  repeat first [apply written_nil | apply written_cons | apply written_app].

Lemma _calculate_scores_pair (roll1 roll2 : Z) (w : World) :
  _calculate_scores roll1 roll2 w
  = (Ok (score_round_spec roll1 roll2 (next_roll w)),
     world (_calculate_scores roll1 roll2 w)).
Proof.
  rewrite <- _calculate_scores_result.
  destruct (_calculate_scores roll1 roll2 w); reflexivity.
Qed.

(** What the pipeline leaves unchanged, and what it writes. *)
Lemma _calculate_scores_frame (roll1 roll2 : Z) (w : World) :
  let w' := world (_calculate_scores roll1 roll2 w) in
  heap w' = heap w /\ entropy w' = entropy w /\ stdin w' = stdin w
  /\ next_loc w' = next_loc w /\ users w' = users w
  /\ exists written, trace w' = (written ++ trace w)%list.
Proof.
  cbv zeta. rewrite _calculate_scores_run. cbv zeta. unfold doubled.
  destruct (Z.even _), (roll1 =? roll2);
    cbn -[randint_of]; repeat (split; [reflexivity|]); written.
Qed.

Lemma add_score_run (p : loc) (v : Z) (w : World) :
  add_score p v w
  = (Ok tt, mkWorld (entropy w) (draws w) (stdin w) (trace w)
                    (heap_set (heap w) p
                       (mkPlayer (username (heap w p)) (score (heap w p) + v)))
                    (next_loc w) (users w)).
Proof. reflexivity. Qed.

Lemma advance_run (gs : GameState) (w : World) :
  (if turn gs =? 0
   then ret (mkGameState (rounds gs) (players gs) 1)
   else ret (mkGameState (rounds gs + 1) (players gs) 0)) w
  = (Ok (advance gs), w).
Proof. unfold advance. destruct (turn gs =? 0); reflexivity. Qed.

Lemma play_round_run (gs : GameState) (a b : loc) (w : World) :
  two_players gs a b ->
  exists w',
    play_round gs w = (Ok (advance gs), w')
    /\ heap w' = heap_set (heap w) (current_of gs a b)
                   (mkPlayer (username (heap w (current_of gs a b)))
                             (score (heap w (current_of gs a b)) + round_score w))
    /\ entropy w' = entropy w
    /\ draws w' = (round_draws w + draws w)%nat
    /\ stdin w' = stdin w
    /\ next_loc w' = next_loc w
    /\ users w' = users w
    /\ exists written,
        trace w' = (Print [Str "Final Score: "; Int (round_score w); Str NL]
                    :: written ++ trace w)%list.
Proof.
  intros Hgs.
  unfold play_round, bind.
  rewrite print_run; cbv beta iota.
  rewrite print_run; cbv beta iota.
  rewrite _roll_dice_run; cbv beta iota.
  rewrite print_run; cbv beta iota.
  rewrite _roll_dice_run; cbv beta iota.
  rewrite _calculate_scores_pair; cbv beta iota.
  rewrite print_run; cbv beta iota.
  rewrite (py_index_current gs a b _ Hgs); cbv beta iota.
  rewrite add_score_run; cbv beta iota.
  rewrite advance_run.
  eexists; split; [reflexivity|].
  match goal with
  | |- context [_calculate_scores ?x ?y ?v] =>
      pose proof (_calculate_scores_frame x y v) as F;
      pose proof (_calculate_scores_draws x y v) as D;
      change x with (roll_at w 0) in *;
      change y with (roll_at w 1) in *;
      change (next_roll v) with (roll_at w 2) in *;
      set (w5 := world (_calculate_scores (roll_at w 0) (roll_at w 1) v)) in *
  end.
  cbv zeta in F. destruct F as (Hh & He & Hi & Hn & Hu & tr & Ht).
  cbn [heap entropy draws stdin next_loc users trace printed world print emit snd rolled] in *.
  clearbody w5. fold (round_score w). rewrite Hh.
  repeat (split; [assumption || reflexivity|]).
  split.
  { rewrite D. unfold round_draws. destruct (roll_at w 0 =? roll_at w 1); reflexivity. }
  repeat (split; [assumption|]).
  assert (exists written, trace w5 = (written ++ trace w)%list) as [wr ->]
    by (rewrite Ht; written).
  exists wr. reflexivity.
Qed.

Lemma two_players_advance (gs : GameState) (a b : loc) :
  two_players gs a b -> two_players (advance gs) a b.
Proof.
  intros (Hp & Hab & Ht). unfold advance, two_players.
  destruct (turn gs =? 0); cbn [players turn]; auto.
Qed.

Lemma two_players_init (a b : loc) :
  a <> b -> two_players (GameState_init [a; b]) a b.
Proof. intros Hab. unfold two_players. cbn. auto. Qed.

Lemma reachable_two_players (gs : GameState) :
  reachable gs -> exists a b, two_players gs a b.
Proof.
  induction 1 as [a b Hab | gs gs' w w' _ (a & b & IH) Hrun].
  - exists a, b. apply two_players_init, Hab.
  - exists a, b.
    destruct (play_round_run gs a b w IH) as (w1 & Hrun1 & _).
    rewrite Hrun1 in Hrun. injection Hrun as <- _.
    apply two_players_advance, IH.
Qed.

Lemma advance_turn (gs : GameState) (a b : loc) :
  two_players gs a b ->
  (turn gs = 0 /\ turn (advance gs) = 1 /\ rounds (advance gs) = rounds gs)
  \/ (turn gs = 1 /\ turn (advance gs) = 0 /\ rounds (advance gs) = rounds gs + 1).
Proof.
  intros (_ & _ & [Ht|Ht]); unfold advance; rewrite Ht; cbn; auto.
Qed.

Lemma play_rounds_run (a b : loc) (n : nat) :
  forall gs w,
    two_players gs a b ->
    exists gs',
      result (play_rounds n gs w) = Ok gs'
      /\ two_players gs' a b
      /\ turn gs' = (turn gs + Z.of_nat n) mod 2
      /\ rounds gs' = rounds gs + (turn gs + Z.of_nat n) / 2.
Proof.
  induction n as [|n IH]; intros gs w Hgs.
  - exists gs. split; [reflexivity|]. split; [exact Hgs|].
    destruct Hgs as (_ & _ & [Ht|Ht]); rewrite Ht; cbn; split; lia.
  - destruct (play_round_run gs a b w Hgs) as (w1 & Hrun & _).
    destruct (IH (advance gs) w1 (two_players_advance gs a b Hgs))
      as (gs' & Hres & Hgs' & Hturn & Hrounds).
    exists gs'. split.
    { cbn [play_rounds]. unfold bind. rewrite Hrun. exact Hres. }
    split; [exact Hgs'|].
    rewrite Hturn, Hrounds.
    destruct (advance_turn gs a b Hgs) as [(H0 & H1 & H2)|(H0 & H1 & H2)];
      rewrite H0, H1, H2, Nat2Z.inj_succ; split;
      Z.div_mod_to_equations; lia.
Qed.

(** C2: from every reachable game state a call of [play_round] returns,
    and either the turn was 0, becomes 1 and the round number is kept,
    or the turn was 1, becomes 0 and the round number grows by one;
    after [n] calls in a new game the turn is [n mod 2] and the round
    number is [1 + n / 2]. *)
Theorem C2_turn_alternates_round_every_two_calls :
  (forall gs w,
      reachable gs ->
      exists gs',
        result (play_round gs w) = Ok gs'
        /\ ((turn gs = 0 /\ turn gs' = 1 /\ rounds gs' = rounds gs)
            \/ (turn gs = 1 /\ turn gs' = 0 /\ rounds gs' = rounds gs + 1)))
  /\ (forall a b n w,
      a <> b ->
      exists gs,
        result (play_rounds n (GameState_init [a; b]) w) = Ok gs
        /\ turn gs = Z.of_nat n mod 2
        /\ rounds gs = 1 + Z.of_nat n / 2).
Proof.
  split.
  - intros gs w Hr. destruct (reachable_two_players gs Hr) as (a & b & Hgs).
    destruct (play_round_run gs a b w Hgs) as (w1 & Hrun & _).
    exists (advance gs). split; [rewrite Hrun; reflexivity|].
    apply (advance_turn gs a b Hgs).
  - intros a b n w Hab.
    destruct (play_rounds_run a b n _ w (two_players_init a b Hab))
      as (gs & Hres & _ & Hturn & Hrounds).
    exists gs. split; [exact Hres|]. split; [exact Hturn | exact Hrounds].
Qed.

Lemma C2_turn_alternates_round_every_two_calls_witness :
  reachable (GameState_init [0%nat; 1%nat])
  /\ exists gs',
      result (play_round (GameState_init [0%nat; 1%nat])
                         (start_world (constant 2) [] [])) = Ok gs'
      /\ ((turn (GameState_init [0%nat; 1%nat]) = 0 /\ turn gs' = 1
           /\ rounds gs' = rounds (GameState_init [0%nat; 1%nat]))
          \/ (turn (GameState_init [0%nat; 1%nat]) = 1 /\ turn gs' = 0
              /\ rounds gs' = rounds (GameState_init [0%nat; 1%nat]) + 1)).
Proof.
  assert (R : reachable (GameState_init [0%nat; 1%nat]))
    by (apply reachable_init; discriminate).
  split; [exact R|].
  apply (proj1 C2_turn_alternates_round_every_two_calls). exact R.
Defined.

Lemma heap_set_same (h : loc -> Player) (p : loc) (v : Player) :
  heap_set h p v p = v.
Proof. unfold heap_set. rewrite Nat.eqb_refl. reflexivity. Qed.

Lemma heap_set_other (h : loc -> Player) (p q : loc) (v : Player) :
  q <> p -> heap_set h p v q = h q.
Proof.
  intros Hq. unfold heap_set.
  destruct (Nat.eqb_spec q p); [contradiction | reflexivity].
Qed.

Lemma other_is_not_current (gs : GameState) (a b : loc) :
  a <> b -> other_of gs a b <> current_of gs a b.
Proof.
  intros Hab. unfold other_of, current_of.
  destruct (turn gs =? 0); congruence.
Qed.

(** C8: a call of [play_round] on a game state with two distinct player
    objects returns; it adds the score of the round, the one it writes
    as the final score, to the score of the player at index [turn], and
    leaves the score of the other player, the names of both players,
    every other object and the list of players as they were. *)
Theorem C8_play_round_updates_current_player_only :
  forall gs a b w,
    two_players gs a b ->
    exists gs' w',
      play_round gs w = (Ok gs', w')
      /\ py_index (players gs) (turn gs) w = (Ok (current_of gs a b), w)
      /\ score (heap w' (current_of gs a b))
         = score (heap w (current_of gs a b)) + round_score w
      /\ score (heap w' (other_of gs a b)) = score (heap w (other_of gs a b))
      /\ username (heap w' a) = username (heap w a)
      /\ username (heap w' b) = username (heap w b)
      /\ (forall p, p <> current_of gs a b -> heap w' p = heap w p)
      /\ players gs' = players gs
      /\ exists written,
          trace w' = (Print [Str "Final Score: "; Int (round_score w); Str NL]
                      :: written ++ trace w)%list.
Proof.
  intros gs a b w Hgs.
  destruct (play_round_run gs a b w Hgs)
    as (w' & Hrun & Hheap & _ & _ & _ & _ & _ & Htrace).
  exists (advance gs), w'. split; [exact Hrun|].
  split; [apply py_index_current, Hgs|].
  assert (Hab : a <> b) by apply Hgs.
  assert (Hname : forall p, username (heap w' p) = username (heap w p)).
  { intros p. rewrite Hheap. unfold heap_set.
    destruct (Nat.eqb_spec p (current_of gs a b)) as [->|]; reflexivity. }
  split; [rewrite Hheap, heap_set_same; reflexivity|].
  split.
  { rewrite Hheap, heap_set_other by (apply other_is_not_current, Hab).
    reflexivity. }
  repeat (split; [apply Hname|]).
  split; [intros p Hp; rewrite Hheap; apply heap_set_other, Hp|].
  split; [|exact Htrace].
  unfold advance. destruct (turn gs =? 0); reflexivity.
Qed.

Lemma C8_play_round_updates_current_player_only_witness :
  two_players new_game 0%nat 1%nat
  /\ exists gs' w',
      play_round new_game (start_world (constant 2) [] []) = (Ok gs', w')
      /\ score (heap w' 0%nat) = 0 + round_score (start_world (constant 2) [] [])
      /\ score (heap w' 1%nat) = 0.
Proof.
  assert (H : two_players new_game 0%nat 1%nat).
  { unfold two_players, new_game. cbn. repeat split; [discriminate | lia]. }
  split; [exact H|].
  destruct (C8_play_round_updates_current_player_only
              new_game 0%nat 1%nat (start_world (constant 2) [] []) H)
    as (gs' & w' & Hrun & _ & Hcur & Hother & _).
  exists gs', w'. split; [exact Hrun|]. split; [exact Hcur | exact Hother].
Defined.

(** The two player objects have to be distinct for the score of the
    other player to stay: in a game state whose list holds one object
    twice, the turn of index 0 (a double of threes with an extra three,
    9 less 5) changes the score read at index 1 as well. *)
Example play_round_on_one_object_twice :
  let gs := GameState_init [0%nat; 0%nat] in
  let w := start_world (constant 2) [] [] in
  result (py_index (players gs) 1 w) = Ok 0%nat
  /\ score (heap w 0%nat) = 0
  /\ score (heap (world (play_round gs w)) 0%nat) = 4.
Proof. vm_compute. repeat split; reflexivity. Qed.

(** ** The tie break *)

Lemma get_username_run (p : loc) (w : World) :
  get_username p w = (Ok (username (heap w p)), w).
Proof. reflexivity. Qed.

Lemma get_score_run (p : loc) (w : World) :
  get_score p w = (Ok (score (heap w p)), w).
Proof. reflexivity. Qed.

Ltac run :=
  repeat (first [ rewrite print_run | rewrite _roll_dice_run
                | rewrite py_index_pair_0 | rewrite py_index_pair_1
                | rewrite get_username_run | rewrite get_score_run
                | rewrite add_score_run ];
          cbv beta iota).

Lemma is_draw_run (gs : GameState) (a b : loc) (w : World) :
  players gs = [a; b] ->
  is_draw gs w = (Ok (score (heap w a) =? score (heap w b)), w).
Proof. intros Hp. unfold is_draw. rewrite Hp. reflexivity. Qed.

(** One iteration of the loop of [play_draw] on a draw. *)
Lemma play_draw_iteration (fuel : nat) (gs : GameState) (a b : loc) (w : World) :
  two_players gs a b ->
  score (heap w a) = score (heap w b) ->
  exists w2,
    play_draw (S fuel) gs w = play_draw fuel gs w2
    /\ heap w2 = tiebreak_heap w a b
    /\ entropy w2 = entropy w
    /\ draws w2 = (2 + draws w)%nat
    /\ stdin w2 = stdin w
    /\ next_loc w2 = next_loc w
    /\ users w2 = users w
    /\ exists written, trace w2 = (written ++ trace w)%list.
Proof.
  intros (Hp & Hab & _) Heq.
  cbn [play_draw]. unfold bind. rewrite (is_draw_run gs a b w Hp); cbv beta iota.
  rewrite Heq, Z.eqb_refl. rewrite Hp. run.
  eexists. split; [reflexivity|].
  cbn [heap entropy draws stdin next_loc users trace printed rolled].
  split.
  { rewrite (heap_set_other _ a b) by congruence. reflexivity. }
  repeat (split; [reflexivity|]). written.
Qed.

(** The loop of [play_draw] stops at once when the scores differ. *)
Lemma play_draw_exit (fuel : nat) (gs : GameState) (a b : loc) (w : World) :
  two_players gs a b ->
  score (heap w a) <> score (heap w b) ->
  play_draw (S fuel) gs w = (Ok tt, w).
Proof.
  intros (Hp & _ & _) Hne.
  cbn [play_draw]. unfold bind. rewrite (is_draw_run gs a b w Hp); cbv beta iota.
  destruct (Z.eqb_spec (score (heap w a)) (score (heap w b)));
    [contradiction | reflexivity].
Qed.

Lemma play_draw_returns_unequal (gs : GameState) (a b : loc) (fuel : nat) :
  two_players gs a b ->
  forall w w',
    play_draw fuel gs w = (Ok tt, w') ->
    score (heap w' a) <> score (heap w' b).
Proof.
  intros Hgs. induction fuel as [|fuel IH]; intros w w' Hrun.
  - discriminate.
  - destruct (Z.eq_dec (score (heap w a)) (score (heap w b))) as [Heq|Hne].
    + destruct (play_draw_iteration fuel gs a b w Hgs Heq) as (w2 & Hstep & _).
      rewrite Hstep in Hrun. apply (IH w2 w' Hrun).
    + rewrite (play_draw_exit fuel gs a b w Hgs Hne) in Hrun.
      injection Hrun as <-. exact Hne.
Qed.

Lemma tiebreak_heap_scores (w : World) (a b : loc) :
  a <> b ->
  score (tiebreak_heap w a b a) = score (heap w a) + roll_at w 0
  /\ score (tiebreak_heap w a b b) = score (heap w b) + roll_at w 1
  /\ username (tiebreak_heap w a b a) = username (heap w a)
  /\ username (tiebreak_heap w a b b) = username (heap w b)
  /\ forall p, p <> a -> p <> b -> tiebreak_heap w a b p = heap w p.
Proof.
  intros Hab. unfold tiebreak_heap.
  rewrite (heap_set_other _ b a) by congruence.
  rewrite !heap_set_same. repeat (split; [reflexivity|]).
  intros p Ha Hb. rewrite !heap_set_other by assumption. reflexivity.
Qed.

Lemma roll_at_shift (w w2 : World) (n k : nat) :
  entropy w2 = entropy w -> draws w2 = (n + draws w)%nat ->
  roll_at w2 k = roll_at w (k + n).
Proof.
  intros He Hd. unfold roll_at. rewrite He, Hd. do 2 f_equal. lia.
Qed.

(** The tie break returns when some later pair of rolls differs. *)
Lemma play_draw_terminates (gs : GameState) (a b : loc) (k : nat) :
  two_players gs a b ->
  forall fuel w,
    (S (S k) <= fuel)%nat ->
    roll_at w (2 * k) <> roll_at w (2 * k + 1) ->
    exists w', play_draw fuel gs w = (Ok tt, w').
Proof.
  intros Hgs. induction k as [|k IH]; intros fuel w Hfuel Hk;
    (destruct fuel as [|fuel]; [lia|]);
    (destruct (Z.eq_dec (score (heap w a)) (score (heap w b))) as [Heq|Hne];
     [|exists w; apply (play_draw_exit _ gs a b w Hgs Hne)]);
    destruct (play_draw_iteration fuel gs a b w Hgs Heq)
      as (w2 & Hstep & Hheap & He & Hd & _).
  - destruct fuel as [|fuel]; [lia|].
    exists w2. rewrite Hstep. apply (play_draw_exit fuel gs a b w2 Hgs).
    destruct (tiebreak_heap_scores w a b (proj1 (proj2 Hgs))) as (Ha & Hb & _).
    rewrite Hheap, Ha, Hb. cbn [Nat.mul Nat.add] in Hk. lia.
  - destruct (IH fuel w2) as (w' & Hrun); [lia| |].
    { rewrite !(roll_at_shift w w2 2 _ He Hd).
      replace (2 * k + 2)%nat with (2 * S k)%nat by lia.
      replace (2 * k + 1 + 2)%nat with (2 * S k + 1)%nat by lia.
      exact Hk. }
    exists w'. rewrite Hstep. exact Hrun.
Qed.

(** The tie break never returns when the scores are equal and every
    later pair of rolls is a pair of equal rolls. *)
Lemma play_draw_runs_on (gs : GameState) (a b : loc) (fuel : nat) :
  two_players gs a b ->
  forall w,
    score (heap w a) = score (heap w b) ->
    (forall k, roll_at w (2 * k) = roll_at w (2 * k + 1)) ->
    result (play_draw fuel gs w) = OutOfFuel.
Proof.
  intros Hgs. induction fuel as [|fuel IH]; intros w Heq Hrolls; [reflexivity|].
  destruct (play_draw_iteration fuel gs a b w Hgs Heq)
    as (w2 & Hstep & Hheap & He & Hd & _).
  rewrite Hstep. apply IH.
  - destruct (tiebreak_heap_scores w a b (proj1 (proj2 Hgs))) as (Ha & Hb & _).
    rewrite Hheap, Ha, Hb. pose proof (Hrolls 0%nat) as H0.
    cbn [Nat.mul Nat.add] in H0. lia.
  - intros k. rewrite !(roll_at_shift w w2 2 _ He Hd).
    replace (2 * k + 2)%nat with (2 * S k)%nat by lia.
    replace (2 * k + 1 + 2)%nat with (2 * S k + 1)%nat by lia.
    apply Hrolls.
Qed.

(** ** The main game *)

Lemma bind_Ok_inv {A B : Type} (m : M A) (k : A -> M B) (w w' : World) (y : B) :
  bind m k w = (Ok y, w') ->
  exists x w1, m w = (Ok x, w1) /\ k x w1 = (Ok y, w').
Proof.
  unfold bind. destruct (m w) as [[x| |] w1]; intros H; try discriminate.
  exists x, w1. split; [reflexivity | exact H].
Qed.

Lemma bind_Ok_run {A B : Type} (m : M A) (k : A -> M B) (w w1 : World) (x : A) :
  m w = (Ok x, w1) -> bind m k w = k x w1.
Proof. intros H. unfold bind. rewrite H. reflexivity. Qed.

Lemma wrote_only_trans (w1 w2 w3 : World) :
  wrote_only w1 w2 -> wrote_only w2 w3 -> wrote_only w1 w3.
Proof.
  intros (He & Hd & Hi & Hh & Hn & Hu & t & Ht) (He' & Hd' & Hi' & Hh' & Hn' & Hu' & t' & Ht').
  unfold wrote_only. rewrite He', Hd', Hi', Hh', Hn', Hu', Ht', Ht.
  repeat (split; [assumption|]). written.
Qed.

Lemma show_summary_run (end_ : bool) (gs : GameState) (a b : loc) (w : World) :
  two_players gs a b ->
  exists w', show_summary end_ gs w = (Ok tt, w') /\ wrote_only w w'.
Proof.
  intros Hgs. unfold show_summary, bind. run.
  destruct end_; cbn [negb]; unfold bind, ret; run.
  - destruct Hgs as (Hp & _). rewrite Hp. run.
    eexists. split; [reflexivity|].
    unfold wrote_only, printed; cbn. repeat (split; [reflexivity|]). written.
  - rewrite (py_index_current gs a b _ Hgs); cbv beta iota. run.
    destruct Hgs as (Hp & _). rewrite Hp. run.
    eexists. split; [reflexivity|].
    unfold wrote_only, printed; cbn. repeat (split; [reflexivity|]). written.
Qed.

Lemma input_run (prompt line : string) (rest : list string) (w : World) :
  stdin w = line :: rest ->
  exists w1, input prompt w = (Ok line, w1) /\ stdin w1 = rest
    /\ entropy w1 = entropy w /\ draws w1 = draws w /\ heap w1 = heap w.
Proof.
  intros H. unfold input. rewrite H. eexists. split; [reflexivity|].
  cbn. repeat split; reflexivity.
Qed.

Lemma round_in_range_advance (gs : GameState) (a b : loc) :
  two_players gs a b -> rounds gs <= 5 -> round_in_range (advance gs).
Proof.
  intros Hgs Hr. unfold round_in_range.
  destruct (advance_turn gs a b Hgs) as [(_ & _ & ->)|(_ & -> & ->)]; lia.
Qed.

(** When the main loop returns, five rounds have been played. *)
Lemma game_loop_returns (a b : loc) (fuel : nat) :
  forall gs w gs' w',
    two_players gs a b -> round_in_range gs ->
    game_loop fuel gs w = (Ok gs', w') ->
    two_players gs' a b /\ rounds gs' = 6 /\ turn gs' = 0.
Proof.
  induction fuel as [|fuel IH]; intros gs w gs' w' Hgs Hr Hrun; [discriminate|].
  cbn [game_loop] in Hrun. destruct (Z.leb_spec (rounds gs) 5) as [Hle|Hgt].
  - apply bind_Ok_inv in Hrun. destruct Hrun as (_ & w1 & _ & Hrun).
    apply bind_Ok_inv in Hrun. destruct Hrun as (_ & w2 & _ & Hrun).
    apply bind_Ok_inv in Hrun. destruct Hrun as (gs1 & w3 & Hround & Hrun).
    destruct (play_round_run gs a b w2 Hgs) as (w3' & Hround' & _).
    rewrite Hround' in Hround. injection Hround as <- <-.
    apply (IH _ _ _ _ (two_players_advance gs a b Hgs)
              (round_in_range_advance gs a b Hgs Hle) Hrun).
  - injection Hrun as <- <-. split; [exact Hgs|].
    destruct Hr as [Hr|Hr]; [lia | exact Hr].
Qed.

(** The shape of every run of the main game that returns. *)
Lemma main_game_inv (fuel : nat) (a b : loc) (w w' : World)
    (gs : GameState) (winner : loc) :
  a <> b ->
  main_game fuel a b w = (Ok (gs, winner), w') ->
  exists w1 w3,
    game_loop fuel (GameState_init [a; b]) w = (Ok gs, w1)
    /\ two_players gs a b /\ rounds gs = 6 /\ turn gs = 0
    /\ ((score (heap w1 a) = score (heap w1 b)
         /\ exists w2, wrote_only w1 w2 /\ play_draw fuel gs w2 = (Ok tt, w3))
        \/ (score (heap w1 a) <> score (heap w1 b) /\ w3 = w1))
    /\ wrote_only w3 w'
    /\ winner = if score (heap w3 a) >? score (heap w3 b) then a else b.
Proof.
  intros Hab Hrun. unfold main_game in Hrun.
  apply bind_Ok_inv in Hrun. destruct Hrun as (gs0 & w1 & Hloop & Hrun).
  assert (Hinit : round_in_range (GameState_init [a; b])) by (left; cbn; lia).
  destruct (game_loop_returns a b fuel _ _ _ _ (two_players_init a b Hab) Hinit Hloop)
    as (Hgs & Hrounds & Hturn).
  pose proof Hgs as (Hp & _ & _).
  rewrite (bind_Ok_run _ _ _ _ _ (is_draw_run gs0 a b w1 Hp)) in Hrun.
  apply bind_Ok_inv in Hrun. destruct Hrun as ([] & w3 & Htie & Hrun).
  destruct (show_summary_run true gs0 a b w3 Hgs) as (w4 & Hshow & Hw4).
  rewrite (bind_Ok_run _ _ _ _ _ Hshow) in Hrun.
  rewrite Hp in Hrun. unfold bind in Hrun. revert Hrun. run.
  assert (Hsame : heap w4 = heap w3) by apply Hw4. rewrite Hsame.
  intros Hrun.
  assert (Hfinal : (gs0, if score (heap w3 a) >? score (heap w3 b) then a else b) = (gs, winner)
                   /\ wrote_only w4 w').
  { destruct (score (heap w3 a) >? score (heap w3 b)); revert Hrun; run;
      unfold ret; intros Hrun; injection Hrun as <- <- <-;
      (split; [reflexivity|]);
      unfold wrote_only, printed; cbn; repeat (split; [reflexivity|]); written. }
  destruct Hfinal as (Hpair & Hw'). injection Hpair as <- <-.
  exists w1, w3. repeat (split; [assumption|]).
  split; [|split; [apply (wrote_only_trans _ _ _ Hw4 Hw') | reflexivity]].
  destruct (Z.eqb_spec (score (heap w1 a)) (score (heap w1 b))) as [Heq|Hne].
  - left. split; [exact Heq|].
    apply bind_Ok_inv in Htie. destruct Htie as ([] & w2 & Hshow2 & Hdraw).
    destruct (show_summary_run true gs0 a b w1 Hgs) as (w2' & Hshow2' & Hw2).
    rewrite Hshow2' in Hshow2. injection Hshow2 as <-.
    exists w2'. split; [exact Hw2 | exact Hdraw].
  - right. split; [exact Hne|]. injection Htie as <-. reflexivity.
Qed.

Lemma turns_left_advance (gs : GameState) (a b : loc) :
  two_players gs a b -> rounds gs <= 5 ->
  turns_left gs = S (turns_left (advance gs)).
Proof.
  intros Hgs Hr. unfold turns_left.
  destruct (advance_turn gs a b Hgs) as [(-> & -> & ->)|(-> & -> & ->)]; lia.
Qed.

(** The main loop returns when there is a line of input for each turn
    that is left. *)
Lemma game_loop_total (a b : loc) (fuel : nat) :
  forall gs w,
    two_players gs a b -> round_in_range gs ->
    (turns_left gs < fuel)%nat ->
    (turns_left gs <= List.length (stdin w))%nat ->
    exists gs' w', game_loop fuel gs w = (Ok gs', w').
Proof.
  induction fuel as [|fuel IH]; intros gs w Hgs Hr Hfuel Hin; [lia|].
  cbn [game_loop]. destruct (Z.leb_spec (rounds gs) 5) as [Hle|Hgt].
  - rewrite (turns_left_advance gs a b Hgs Hle) in Hfuel, Hin.
    destruct (show_summary_run false gs a b w Hgs) as (w1 & Hshow & Hw1).
    rewrite (bind_Ok_run _ _ _ _ _ Hshow).
    assert (Hin1 : stdin w1 = stdin w) by apply Hw1.
    destruct (stdin w) as [|line rest] eqn:Hstdin; [cbn in Hin; lia|].
    destruct (input_run ("(Enter) Next Round" ++ NL) line rest w1 Hin1)
      as (w2 & Hinput & Hrest & _).
    rewrite (bind_Ok_run _ _ _ _ _ Hinput).
    destruct (play_round_run gs a b w2 Hgs) as (w3 & Hround & _ & _ & _ & Hin3 & _).
    rewrite (bind_Ok_run _ _ _ _ _ Hround).
    apply (IH _ _ (two_players_advance gs a b Hgs)
              (round_in_range_advance gs a b Hgs Hle)); [lia|].
    rewrite Hin3, Hrest. cbn in Hin. lia.
  - exists gs, w. reflexivity.
Qed.

(** The main game returns when there are ten lines of input and, in
    case of a draw after round 5, some later pair of rolls differs. *)
Lemma main_game_total (a b : loc) (fuel : nat) (w : World) :
  a <> b ->
  (11 <= fuel)%nat ->
  (10 <= List.length (stdin w))%nat ->
  exists gs w1,
    game_loop fuel (GameState_init [a; b]) w = (Ok gs, w1)
    /\ forall k,
        (S (S k) <= fuel)%nat ->
        roll_at w1 (2 * k) <> roll_at w1 (2 * k + 1) ->
        exists winner w', main_game fuel a b w = (Ok (gs, winner), w').
Proof.
  intros Hab Hfuel Hin.
  assert (Hinit : round_in_range (GameState_init [a; b])) by (left; cbn; lia).
  destruct (game_loop_total a b fuel _ w (two_players_init a b Hab) Hinit)
    as (gs & w1 & Hloop); [cbn; lia | cbn; lia |].
  exists gs, w1. split; [exact Hloop|]. intros k Hk Hrolls.
  destruct (game_loop_returns a b fuel _ _ _ _ (two_players_init a b Hab) Hinit Hloop)
    as (Hgs & _ & _).
  pose proof Hgs as (Hp & _ & _).
  unfold main_game. rewrite (bind_Ok_run _ _ _ _ _ Hloop).
  rewrite (bind_Ok_run _ _ _ _ _ (is_draw_run gs a b w1 Hp)).
  assert (Htie : exists w3,
             (if score (heap w1 a) =? score (heap w1 b)
              then show_summary true gs;; play_draw fuel gs
              else ret tt) w1 = (Ok tt, w3)).
  { destruct (score (heap w1 a) =? score (heap w1 b)).
    - destruct (show_summary_run true gs a b w1 Hgs)
        as (w2 & Hshow & He & Hd & _).
      rewrite (bind_Ok_run _ _ _ _ _ Hshow).
      apply (play_draw_terminates gs a b k Hgs fuel w2 Hk).
      rewrite !(roll_at_shift w1 w2 0 _ He Hd), !Nat.add_0_r. exact Hrolls.
    - exists w1. reflexivity. }
  destruct Htie as (w3 & Htie). rewrite (bind_Ok_run _ _ _ _ _ Htie).
  destruct (show_summary_run true gs a b w3 Hgs) as (w4 & Hshow & _).
  rewrite (bind_Ok_run _ _ _ _ _ Hshow).
  rewrite Hp. unfold bind. run.
  destruct (score (heap w4 a) >? score (heap w4 b)); run;
    eexists; eexists; reflexivity.
Qed.

(** A game that ends in a draw at 0 to 0 after the five rounds: the
    tie break rolls 3 and 4, two rolls after the thirty of the rounds,
    and the second player wins by 4 to 3. *)
Example main_game_with_tiebreak :
  result (main_game 11 0%nat 1%nat tied_world)
  = Ok (mkGameState 6 [0%nat; 1%nat] 0, 1%nat)
  /\ draws (world (main_game 11 0%nat 1%nat tied_world)) = 32%nat
  /\ score (heap (world (main_game 11 0%nat 1%nat tied_world)) 0%nat) = 3
  /\ score (heap (world (main_game 11 0%nat 1%nat tied_world)) 1%nat) = 4.
Proof. vm_compute. repeat split; reflexivity. Qed.

(** With nine lines of input the tenth turn is never played: the
    input at its start raises. *)
Example main_game_end_of_input :
  result (main_game 11 0%nat 1%nat
            (start_world counting (repeat EmptyString 9) []))
  = Raise EOFError.
Proof. vm_compute. reflexivity. Qed.

(** C4: on a draw one iteration of [play_draw] draws two rolls and
    adds the first, as rolled, to the score of the first player and the
    second to the score of the second player; the loop stops without
    a roll as soon as the scores differ; when [play_draw] returns the
    scores differ; and in the main game it is run after round 5 on equal
    scores only: on unequal scores nothing is rolled and the scores stay
    as the rounds left them. *)
Theorem C4_tiebreak_adds_raw_rolls_until_scores_differ :
  (forall fuel gs a b w,
      two_players gs a b ->
      score (heap w a) = score (heap w b) ->
      exists w2,
        play_draw (S fuel) gs w = play_draw fuel gs w2
        /\ score (heap w2 a) = score (heap w a) + roll_at w 0
        /\ score (heap w2 b) = score (heap w b) + roll_at w 1
        /\ draws w2 = (2 + draws w)%nat)
  /\ (forall fuel gs a b w,
      two_players gs a b ->
      score (heap w a) <> score (heap w b) ->
      play_draw (S fuel) gs w = (Ok tt, w))
  /\ (forall fuel gs a b w w',
      two_players gs a b ->
      play_draw fuel gs w = (Ok tt, w') ->
      score (heap w' a) <> score (heap w' b))
  /\ (forall fuel a b w gs winner w',
      a <> b ->
      main_game fuel a b w = (Ok (gs, winner), w') ->
      exists w1,
        game_loop fuel (GameState_init [a; b]) w = (Ok gs, w1)
        /\ rounds gs = 6
        /\ (score (heap w1 a) <> score (heap w1 b) ->
            heap w' = heap w1 /\ draws w' = draws w1)
        /\ (score (heap w1 a) = score (heap w1 b) ->
            exists w2 w3,
              heap w2 = heap w1 /\ draws w2 = draws w1
              /\ play_draw fuel gs w2 = (Ok tt, w3)
              /\ heap w' = heap w3 /\ draws w' = draws w3)).
Proof.
  split; [|split; [|split]].
  - intros fuel gs a b w Hgs Heq.
    destruct (play_draw_iteration fuel gs a b w Hgs Heq)
      as (w2 & Hstep & Hheap & _ & Hd & _).
    destruct (tiebreak_heap_scores w a b (proj1 (proj2 Hgs))) as (Ha & Hb & _).
    exists w2. rewrite Hheap. auto.
  - intros fuel gs a b w. apply play_draw_exit.
  - intros fuel gs a b w w' Hgs. apply (play_draw_returns_unequal gs a b fuel Hgs).
  - intros fuel a b w gs winner w' Hab Hrun.
    destruct (main_game_inv fuel a b w w' gs winner Hab Hrun)
      as (w1 & w3 & Hloop & Hgs & Hrounds & _ & Htie & Hw' & _).
    destruct Hw' as (_ & Hd' & _ & Hh' & _).
    exists w1. split; [exact Hloop|]. split; [exact Hrounds|].
    destruct Htie as [(Heq & w2 & Hw2 & Hdraw)|(Hne & ->)].
    + split; [intros Hne; contradiction|].
      intros _. destruct Hw2 as (_ & Hd2 & _ & Hh2 & _).
      exists w2, w3. auto.
    + split; [auto|]. intros Heq; contradiction.
Qed.

Lemma C4_tiebreak_adds_raw_rolls_until_scores_differ_witness :
  two_players new_game 0%nat 1%nat
  /\ play_draw 2 new_game game_world
     = (Ok tt, world (play_draw 2 new_game game_world))
  /\ score (heap (world (play_draw 2 new_game game_world)) 0%nat)
     <> score (heap (world (play_draw 2 new_game game_world)) 1%nat).
Proof.
  assert (H : two_players new_game 0%nat 1%nat).
  { unfold two_players, new_game. cbn. repeat split; [discriminate | lia]. }
  assert (R : play_draw 2 new_game game_world
              = (Ok tt, world (play_draw 2 new_game game_world)))
    by (vm_compute; reflexivity).
  split; [exact H|]. split; [exact R|].
  apply (proj1 (proj2 (proj2 C4_tiebreak_adds_raw_rolls_until_scores_differ))
           2%nat new_game 0%nat 1%nat game_world _ H R).
Defined.

(** C5: when the main game returns, five rounds have been played and
    the winner it declares is one of the two players, with a score
    strictly greater than the score of the other player. *)
Theorem C5_winner_has_strictly_greater_score :
  forall fuel a b w gs winner w',
    a <> b ->
    main_game fuel a b w = (Ok (gs, winner), w') ->
    rounds gs = 6
    /\ ((winner = a /\ score (heap w' a) > score (heap w' b))
        \/ (winner = b /\ score (heap w' b) > score (heap w' a))).
Proof.
  intros fuel a b w gs winner w' Hab Hrun.
  destruct (main_game_inv fuel a b w w' gs winner Hab Hrun)
    as (w1 & w3 & _ & Hgs & Hrounds & _ & Htie & Hw' & Hwin).
  split; [exact Hrounds|].
  assert (Hne : score (heap w3 a) <> score (heap w3 b)).
  { destruct Htie as [(_ & w2 & _ & Hdraw)|(Hne & ->)]; [|exact Hne].
    apply (play_draw_returns_unequal gs a b fuel Hgs w2 w3 Hdraw). }
  destruct Hw' as (_ & _ & _ & -> & _).
  destruct (Z.gtb_spec (score (heap w3 a)) (score (heap w3 b))); subst winner.
  - left. split; [reflexivity | lia].
  - right. split; [reflexivity | lia].
Qed.

Lemma C5_winner_has_strictly_greater_score_witness :
  0%nat <> 1%nat
  /\ main_game 11 0%nat 1%nat game_world
     = (Ok (mkGameState 6 [0%nat; 1%nat] 0, 1%nat),
        world (main_game 11 0%nat 1%nat game_world))
  /\ score (heap (world (main_game 11 0%nat 1%nat game_world)) 1%nat)
     > score (heap (world (main_game 11 0%nat 1%nat game_world)) 0%nat).
Proof.
  assert (R : main_game 11 0%nat 1%nat game_world
              = (Ok (mkGameState 6 [0%nat; 1%nat] 0, 1%nat),
                 world (main_game 11 0%nat 1%nat game_world)))
    by (vm_compute; reflexivity).
  split; [discriminate|]. split; [exact R|].
  destruct (C5_winner_has_strictly_greater_score
              11%nat 0%nat 1%nat game_world _ _ _ (fun H => O_S _ H) R)
    as (_ & [(H & _)|(_ & H)]); [discriminate H | exact H].
Defined.

(** ** Login *)

Lemma matching_run (not_allowed : list loc) (name : string) (w : World) :
  matching not_allowed name w = (Ok (found_in w not_allowed name), w).
Proof.
  induction not_allowed as [|u rest IH]; [reflexivity|].
  cbn [matching]. unfold bind. rewrite get_username_run; cbv beta iota.
  rewrite IH. unfold found_in. cbn [filter].
  destruct (String.eqb (username (heap w u)) name); reflexivity.
Qed.

Lemma found_in_taken (w : World) (not_allowed : list loc) (name : string) :
  name_taken w not_allowed name <->
  (0 <? Z.of_nat (List.length (found_in w not_allowed name))) = true.
Proof.
  unfold name_taken, found_in. rewrite length_map. split.
  - intros (u & Hin & Hname).
    assert (Hf : In u (filter (fun u => String.eqb (username (heap w u)) name)
                               not_allowed)).
    { apply filter_In. split; [exact Hin|]. apply String.eqb_eq, Hname. }
    destruct (filter _ not_allowed); [contradiction|]. reflexivity.
  - intros H.
    destruct (filter (fun u => String.eqb (username (heap w u)) name) not_allowed)
      as [|u l] eqn:E; [discriminate|].
    assert (Hf : In u (filter (fun u => String.eqb (username (heap w u)) name)
                               not_allowed))
      by (rewrite E; left; reflexivity).
    apply filter_In in Hf. destruct Hf as (Hin & Hname).
    exists u. split; [exact Hin | apply String.eqb_eq, Hname].
Qed.

Lemma input_line (prompt line : string) (rest : list string) (w : World) :
  stdin w = line :: rest ->
  input prompt w
  = (Ok line, mkWorld (entropy w) (draws w) rest (Prompt prompt :: trace w)
                      (heap w) (next_loc w) (users w)).
Proof. intros H. unfold input. rewrite H. reflexivity. Qed.

(** An iteration of the login loop on the name of a player that is
    already logged in. *)
Lemma authenticate_loop_refuses (sha256 : string -> string) (fuel : nat)
    (not_allowed : list loc) (name : string) (rest : list string) (w : World) :
  stdin w = name :: rest ->
  name_taken w not_allowed name ->
  authenticate_loop sha256 (S fuel) not_allowed w
  = authenticate_loop sha256 fuel not_allowed (refused rest w).
Proof.
  intros Hin Htaken. cbn [authenticate_loop].
  rewrite (bind_Ok_run _ _ _ _ _ (input_line "Username: " name rest w Hin)).
  rewrite (bind_Ok_run _ _ _ _ _ (matching_run not_allowed name _)).
  apply found_in_taken in Htaken.
  change (found_in _ not_allowed name) with (found_in w not_allowed name).
  rewrite Htaken. reflexivity.
Qed.

Lemma grows_ret {A : Type} (x : A) : grows (ret x).
Proof. intros w. apply written_nil. Qed.

Lemma grows_raise {A : Type} (e : Exn) : grows (@raise A e).
Proof. intros w. apply written_nil. Qed.

Lemma grows_out_of_fuel {A : Type} : grows (@out_of_fuel A).
Proof. intros w. apply written_nil. Qed.

Lemma grows_emit (e : Event) : grows (emit e).
Proof. intros w. cbn. written. Qed.

Lemma grows_print (items : list Item) : grows (print items).
Proof. apply grows_emit. Qed.

Lemma grows_input (prompt : string) : grows (input prompt).
Proof. intros w. unfold input. destruct (stdin w); cbn; written. Qed.

Lemma grows_Player_init (name : string) : grows (Player_init name).
Proof. intros w. apply written_nil. Qed.

Lemma grows_bind {A B : Type} (m : M A) (k : A -> M B) :
  grows m -> (forall x, grows (k x)) -> grows (bind m k).
Proof.
  intros Hm Hk w. unfold bind. destruct (Hm w) as (t1 & H1).
  destruct (m w) as [[x| |] w1]; cbn [world snd] in *.
  - destruct (Hk x w1) as (t2 & H2). rewrite H2, H1. written.
  - rewrite H1. written.
  - rewrite H1. written.
Qed.

Lemma grows_matching (not_allowed : list loc) (name : string) :
  grows (matching not_allowed name).
Proof. intros w. rewrite matching_run. apply written_nil. Qed.

(** The use of the database by [authenticate]: one connection, one
    query, a commit and the close; the rows are the passwords stored
    for the name. *)
Lemma with_SQLManager_select_run (name : string) (w : World) :
  with_SQLManager (select_password name) w
  = (Ok (map snd (filter (fun r => String.eqb (fst r) name) (users w))),
     mkWorld (entropy w) (draws w) (stdin w)
             (password_query name ++ trace w)%list
             (heap w) (next_loc w) (users w)).
Proof. reflexivity. Qed.

Lemma grows_with_SQLManager_select (name : string) :
  grows (with_SQLManager (select_password name)).
Proof. intros w. rewrite with_SQLManager_select_run. cbn. written. Qed.

Ltac grow :=
  repeat first
    [ apply grows_ret | apply grows_print | apply grows_input
    | apply grows_Player_init | apply grows_matching
    | apply grows_with_SQLManager_select | assumption
    | match goal with
      | |- forall _, grows _ => intro
      | |- grows (if ?c then _ else _) => destruct c
      | |- grows (match ?l with [] => _ | _ :: _ => _ end) => destruct l
      end
    | apply grows_bind ].

Lemma grows_authenticate_loop (sha256 : string -> string) (fuel : nat)
    (not_allowed : list loc) :
  grows (authenticate_loop sha256 fuel not_allowed).
Proof.
  induction fuel as [|fuel IH]; [apply grows_out_of_fuel|].
  cbn [authenticate_loop]. grow.
Qed.

(** Every iteration of the login loop starts with the prompt for the
    username. *)
Lemma authenticate_loop_prompts (sha256 : string -> string) (fuel : nat)
    (not_allowed : list loc) (w : World) :
  exists written,
    trace (world (authenticate_loop sha256 (S fuel) not_allowed w))
    = (written ++ Prompt "Username: " :: trace w)%list.
Proof.
  pose proof (grows_authenticate_loop sha256 fuel not_allowed) as IH.
  cbn [authenticate_loop]. unfold bind at 1. unfold input at 1.
  destruct (stdin w) as [|line rest]; [exists []; reflexivity|].
  match goal with
  | |- context [world (?k ?v)] =>
      assert (G : grows k) by grow; destruct (G v) as (t & ->)
  end.
  exists t. reflexivity.
Qed.

(** An iteration of the login loop on any other name asks the
    database for the password of that name. *)
Lemma authenticate_loop_queries (sha256 : string -> string) (fuel : nat)
    (not_allowed : list loc) (name : string) (rest : list string) (w : World) :
  stdin w = name :: rest ->
  ~ name_taken w not_allowed name ->
  exists written,
    trace (world (authenticate_loop sha256 (S fuel) not_allowed w))
    = (written ++ password_query name ++ Prompt "Username: " :: trace w)%list.
Proof.
  intros Hin Hfree. cbn [authenticate_loop].
  rewrite (bind_Ok_run _ _ _ _ _ (input_line "Username: " name rest w Hin)).
  rewrite (bind_Ok_run _ _ _ _ _ (matching_run not_allowed name _)).
  change (found_in _ not_allowed name) with (found_in w not_allowed name).
  destruct (0 <? Z.of_nat (List.length (found_in w not_allowed name))) eqn:E.
  { apply found_in_taken in E. contradiction. }
  rewrite (bind_Ok_run _ _ _ _ _ (with_SQLManager_select_run name _)).
  pose proof (grows_authenticate_loop sha256 fuel not_allowed) as IH.
  match goal with
  | |- context [world (?k ?v)] =>
      assert (G : grows k) by grow; destruct (G v) as (t & ->)
  end.
  exists t. reflexivity.
Qed.

(** The login loop returns or raises when its bound exceeds the number
    of lines of input: every iteration reads at least one line. *)
Lemma authenticate_loop_total (sha256 : string -> string) (fuel : nat)
    (not_allowed : list loc) :
  forall w,
    (List.length (stdin w) < fuel)%nat ->
    result (authenticate_loop sha256 fuel not_allowed w) <> OutOfFuel.
Proof.
  induction fuel as [|fuel IH]; intros w Hlen; [lia|].
  cbn [authenticate_loop]. unfold bind at 1. unfold input at 1.
  destruct (stdin w) as [|name rest] eqn:Hin; [discriminate|].
  cbn [List.length] in Hlen.
  rewrite (bind_Ok_run _ _ _ _ _ (matching_run not_allowed name _)).
  destruct (0 <? _).
  - rewrite (bind_Ok_run _ _ _ _ _ (print_run _ _)). apply IH. cbn. lia.
  - rewrite (bind_Ok_run _ _ _ _ _ (with_SQLManager_select_run name _)).
    cbn [users]. destruct (map snd _) as [|required rows].
    + rewrite (bind_Ok_run _ _ _ _ _ (print_run _ _)). apply IH. cbn. lia.
    + unfold bind at 1. unfold input at 1. cbn [stdin].
      destruct rest as [|password rest']; [discriminate|].
      destruct (String.eqb _ _); [discriminate|].
      rewrite (bind_Ok_run _ _ _ _ _ (print_run _ _)). apply IH.
      cbn in Hlen |- *. lia.
Qed.

(** C9: when the name typed at the username prompt is the name of a
    player in [not_allowed], the call of [authenticate] writes the
    refusal and goes on as a call in the world where only that line
    was read and only the prompt and the refusal were written: the
    database is not used; and the next thing written after the
    refusal is the username prompt again. *)
Theorem C9_taken_username_refused_without_query :
  forall sha256 fuel not_allowed name rest w,
    stdin w = name :: rest ->
    name_taken w not_allowed name ->
    authenticate sha256 (S fuel) not_allowed w
    = authenticate sha256 fuel not_allowed (refused rest w)
    /\ trace (refused rest w)
       = Print [Str "Username Added Already"] :: Prompt "Username: " :: trace w
    /\ exists written,
        trace (world (authenticate sha256 (S (S fuel)) not_allowed w))
        = (written ++ Prompt "Username: "
             :: Print [Str "Username Added Already"]
             :: Prompt "Username: " :: trace w)%list.
Proof.
  intros sha256 fuel not_allowed name rest w Hin Htaken.
  split; [|split; [reflexivity|]].
  - unfold authenticate, bind.
    rewrite (authenticate_loop_refuses sha256 fuel not_allowed name rest w Hin Htaken).
    reflexivity.
  - unfold authenticate, bind.
    rewrite (authenticate_loop_refuses sha256 (S fuel) not_allowed name rest w Hin Htaken).
    destruct (authenticate_loop_prompts sha256 fuel not_allowed (refused rest w))
      as (t & Ht).
    destruct (authenticate_loop sha256 (S fuel) not_allowed (refused rest w))
      as [[player| |] w1]; cbn [world snd trace printed print emit] in *;
      rewrite Ht; cbn [refused trace]; written.
Qed.

Lemma C9_taken_username_refused_without_query_witness :
  stdin second_login_world = "alice" :: ["bob"; "pw2"]
  /\ name_taken second_login_world [0%nat] "alice"
  /\ authenticate mark_digest 3 [0%nat] second_login_world
     = authenticate mark_digest 2 [0%nat]
         (refused ["bob"; "pw2"] second_login_world).
Proof.
  assert (T : name_taken second_login_world [0%nat] "alice").
  { exists 0%nat. split; [left; reflexivity | reflexivity]. }
  split; [reflexivity|]. split; [exact T|].
  apply (proj1 (C9_taken_username_refused_without_query
                  mark_digest 2%nat [0%nat] "alice" ["bob"; "pw2"]
                  second_login_world eq_refl T)).
Defined.

(** The session of the second login: the name of the first player is
    refused without a use of the database, the prompt comes again, and
    the login as bob asks the database once and succeeds. *)
Example second_login_session :
  result (authenticate mark_digest 3 [0%nat] second_login_world) = Ok 1%nat
  /\ trace (world (authenticate mark_digest 3 [0%nat] second_login_world))
     = [Print [Str "Success"]; Prompt "Password: "; DbClose; DbCommit;
        DbExecute "SELECT password FROM users WHERE username=?" "bob";
        DbConnect "dicegame.db"; Prompt "Username: ";
        Print [Str "Username Added Already"]; Prompt "Username: "]
  /\ username (heap (world (authenticate mark_digest 3 [0%nat] second_login_world))
                    1%nat) = "bob".
Proof. vm_compute. repeat split; reflexivity. Qed.

(** * Further properties *)

(** ** Bounds of the game *)

Lemma score_round_spec_bounds (roll1 roll2 extra : Z) :
  1 <= roll1 <= 7 -> 1 <= roll2 <= 7 -> 1 <= extra <= 7 ->
  0 <= score_round_spec roll1 roll2 extra <= 30
  /\ Z.even (score_round_spec roll1 roll2 extra) = true.
Proof.
  intros H1 H2 He. rewrite score_round_spec_cases. cbv zeta.
  assert (Hs : 2 <= double_stage roll1 roll2 extra <= 21)
    by (unfold double_stage; destruct (roll1 =? roll2); lia).
  destruct (Z.even (double_stage roll1 roll2 extra)) eqn:E.
  - rewrite even_plus_10, E. split; [|reflexivity].
    apply Z.even_spec in E. destruct E as [k Hk]. lia.
  - split; [lia|].
    destruct (Z.max_spec 0 (double_stage roll1 roll2 extra - 5)) as [[_ ->]|[_ ->]].
    + rewrite Z.even_sub, E. reflexivity.
    + reflexivity.
Qed.

Lemma roll_at_range (w : World) (k : nat) : 1 <= roll_at w k <= 7.
Proof. apply randint_of_range. lia. Qed.

Lemma round_score_bounds (w : World) :
  0 <= round_score w <= 30 /\ Z.even (round_score w) = true.
Proof. apply score_round_spec_bounds; apply roll_at_range. Qed.

(** The score of a round on two rolls of the dice of the program lies
    between 0 and 30, and 30 is the score of two sevens with an extra
    six. *)
Theorem X1_round_score_between_0_and_30 :
  (forall roll1 roll2 w,
      1 <= roll1 <= 7 -> 1 <= roll2 <= 7 ->
      exists s, result (_calculate_scores roll1 roll2 w) = Ok s /\ 0 <= s <= 30)
  /\ (forall w, next_roll w = 6 -> result (_calculate_scores 7 7 w) = Ok 30).
Proof.
  split.
  - intros roll1 roll2 w H1 H2. rewrite _calculate_scores_result.
    eexists. split; [reflexivity|].
    apply score_round_spec_bounds; [assumption | assumption | apply next_roll_range].
  - intros w H. rewrite _calculate_scores_result, H. reflexivity.
Qed.

Lemma X1_round_score_between_0_and_30_witness :
  (1 <= 7 <= 7
   /\ exists s, result (_calculate_scores 7 7 (start_world (constant 5) [] [])) = Ok s
                /\ 0 <= s <= 30)
  /\ next_roll (start_world (constant 5) [] []) = 6
  /\ result (_calculate_scores 7 7 (start_world (constant 5) [] [])) = Ok 30.
Proof.
  split; [split; [lia|]|split; [reflexivity|]].
  - apply (proj1 X1_round_score_between_0_and_30); lia.
  - apply (proj2 X1_round_score_between_0_and_30). reflexivity.
Defined.

(** One turn of the main loop: the summary, the line of input and the
    round. *)
Lemma game_loop_turn (gs : GameState) (a b : loc) (w : World) :
  two_players gs a b ->
  match stdin w with
  | [] =>
      exists w1,
        (show_summary false gs ;; input ("(Enter) Next Round" ++ NL) ;;
         play_round gs) w = (Raise EOFError, w1)
  | line :: rest =>
      exists w3 s,
        (show_summary false gs ;; input ("(Enter) Next Round" ++ NL) ;;
         play_round gs) w = (Ok (advance gs), w3)
        /\ stdin w3 = rest
        /\ entropy w3 = entropy w /\ users w3 = users w
        /\ next_loc w3 = next_loc w
        /\ (2 + draws w <= draws w3 <= 3 + draws w)%nat
        /\ heap w3 = heap_set (heap w) (current_of gs a b)
                       (mkPlayer (username (heap w (current_of gs a b)))
                                 (score (heap w (current_of gs a b)) + s))
        /\ 0 <= s <= 30 /\ Z.even s = true
  end.
Proof.
  intros Hgs.
  destruct (show_summary_run false gs a b w Hgs)
    as (w1 & Hshow & He1 & Hd1 & Hi1 & Hh1 & Hn1 & Hu1 & _).
  rewrite (bind_Ok_run _ _ _ _ _ Hshow).
  destruct (stdin w) as [|line rest] eqn:Hin.
  - unfold bind, input. rewrite Hi1. eexists. reflexivity.
  - rewrite (bind_Ok_run _ _ _ _ _ (input_line _ line rest w1 Hi1)).
    match goal with |- context [play_round gs ?v] => set (w2 := v) end.
    destruct (play_round_run gs a b w2 Hgs)
      as (w3 & Hround & Hh3 & He3 & Hd3 & Hi3 & Hn3 & Hu3 & _).
    exists w3, (round_score w2). split; [exact Hround|].
    subst w2. cbn [heap entropy draws stdin next_loc users] in *.
    rewrite Hi3, He3, Hu3, Hn3, Hd3, Hh3, He1, Hd1, Hh1, Hn1, Hu1.
    repeat (split; [reflexivity|]).
    split; [unfold round_draws; destruct (_ =? _); lia|].
    split; [reflexivity|]. apply round_score_bounds.
Qed.

Lemma turns_left_zero (gs : GameState) (a b : loc) :
  two_players gs a b -> round_in_range gs -> 5 < rounds gs ->
  turns_left gs = 0%nat /\ rounds gs = 6 /\ turn gs = 0.
Proof.
  intros _ [Hr|(Hr & Ht)] Hgt; [lia|].
  unfold turns_left. rewrite Hr, Ht. repeat split; reflexivity.
Qed.

(** What the main loop does from any game state in range. *)
Lemma game_loop_summary (a b : loc) (fuel : nat) :
  forall gs w gs' w',
    two_players gs a b -> round_in_range gs ->
    game_loop fuel gs w = (Ok gs', w') ->
    (exists read, stdin w = (read ++ stdin w')%list
                  /\ List.length read = turns_left gs)
    /\ entropy w' = entropy w /\ users w' = users w /\ next_loc w' = next_loc w
    /\ (2 * turns_left gs + draws w <= draws w'
        <= 3 * turns_left gs + draws w)%nat
    /\ (forall p, username (heap w' p) = username (heap w p))
    /\ (forall p, p <> a -> p <> b -> heap w' p = heap w p)
    /\ (exists da, score (heap w' a) = score (heap w a) + da
                   /\ 0 <= da <= 30 * (6 - rounds gs - turn gs)
                   /\ Z.even da = true)
    /\ (exists db, score (heap w' b) = score (heap w b) + db
                   /\ 0 <= db <= 30 * (6 - rounds gs)
                   /\ Z.even db = true).
Proof.
  induction fuel as [|fuel IH]; intros gs w gs' w' Hgs Hr Hrun; [discriminate|].
  cbn [game_loop] in Hrun. destruct (Z.leb_spec (rounds gs) 5) as [Hle|Hgt].
  - pose proof (game_loop_turn gs a b w Hgs) as Hturn.
    assert (Hbody : forall (k : GameState -> M GameState),
               (show_summary false gs ;; input ("(Enter) Next Round" ++ NL) ;;
                game_state' <- play_round gs ;; k game_state') w
               = (r <- (show_summary false gs ;;
                        input ("(Enter) Next Round" ++ NL) ;; play_round gs) ;;
                  k r) w).
    { intros k. unfold bind. destruct (show_summary false gs w) as [[[]| |] v1];
        try reflexivity.
      destruct (input _ v1) as [[l| |] v2]; reflexivity. }
    rewrite Hbody in Hrun. clear Hbody.
    destruct (stdin w) as [|line rest] eqn:Hin.
    + destruct Hturn as (w1 & Hraise). unfold bind at 1 in Hrun.
      rewrite Hraise in Hrun. discriminate.
    + destruct Hturn as (w3 & s & Hbody & Hi3 & He3 & Hu3 & Hn3 & Hd3 & Hh3 & Hs & Hev).
      rewrite (bind_Ok_run _ _ _ _ _ Hbody) in Hrun.
      destruct (IH _ _ _ _ (two_players_advance gs a b Hgs)
                   (round_in_range_advance gs a b Hgs Hle) Hrun)
        as ((read & Hread & Hlen) & He & Hu & Hn & Hd & Hname & Hframe
            & (da & Ha & Hda & Heva) & (db & Hb & Hdb & Hevb)).
      pose proof (turns_left_advance gs a b Hgs Hle) as Hleft.
      assert (Hab : a <> b) by apply Hgs.
      split.
      { exists (line :: read). rewrite Hi3 in Hread. rewrite Hread, Hleft.
        split; [reflexivity | cbn; lia]. }
      rewrite He, Hu, Hn, He3, Hu3, Hn3. repeat (split; [reflexivity|]).
      split; [lia|].
      split.
      { intros p. rewrite Hname, Hh3. unfold heap_set.
        destruct (Nat.eqb_spec p (current_of gs a b)) as [->|]; reflexivity. }
      split.
      { intros p Hpa Hpb. rewrite (Hframe p Hpa Hpb), Hh3.
        apply heap_set_other. unfold current_of. destruct (turn gs =? 0); assumption. }
      rewrite Ha, Hb, Hh3.
      destruct (advance_turn gs a b Hgs) as [(Ht & Ht' & Hr')|(Ht & Ht' & Hr')];
        unfold current_of; rewrite Ht; cbn [Z.eqb];
        rewrite Ht', Hr' in *.
      * rewrite heap_set_same, (heap_set_other _ a b) by congruence. cbn [score].
        split.
        { exists (s + da). split; [lia|]. split; [lia|].
          rewrite Z.even_add, Hev, Heva. reflexivity. }
        { exists db. split; [reflexivity|]. split; [lia | exact Hevb]. }
      * rewrite heap_set_same, (heap_set_other _ b a) by congruence. cbn [score].
        split.
        { exists da. split; [reflexivity|]. split; [lia | exact Heva]. }
        { exists (s + db). split; [lia|]. split; [lia|].
          rewrite Z.even_add, Hev, Hevb. reflexivity. }
  - injection Hrun as <- <-.
    destruct (turns_left_zero gs a b Hgs Hr Hgt) as (Hz & Hr6 & Ht0).
    rewrite Hz, Hr6, Ht0.
    split; [exists []; split; reflexivity|].
    do 3 (split; [reflexivity|]). split; [lia|].
    do 2 (split; [intros; reflexivity|]).
    split; exists 0; (split; [lia|]); (split; [lia | reflexivity]).
Qed.

(** When the main loop of a new game returns, it has read ten lines
    of input, one for each turn, and rolled the dice 20 to 30 times;
    each player has gained an even number of points between 0 and 150;
    the names of the players and the table of users are as before. *)
Theorem X2_main_loop_reads_ten_lines_and_bounds_scores :
  forall fuel a b w gs w',
    a <> b ->
    game_loop fuel (GameState_init [a; b]) w = (Ok gs, w') ->
    (exists read, stdin w = (read ++ stdin w')%list /\ List.length read = 10%nat)
    /\ (20 + draws w <= draws w' <= 30 + draws w)%nat
    /\ (exists gain, score (heap w' a) = score (heap w a) + gain
                     /\ 0 <= gain <= 150 /\ gain mod 2 = 0)
    /\ (exists gain, score (heap w' b) = score (heap w b) + gain
                     /\ 0 <= gain <= 150 /\ gain mod 2 = 0)
    /\ (forall p, username (heap w' p) = username (heap w p))
    /\ users w' = users w.
Proof.
  intros fuel a b w gs w' Hab Hrun.
  assert (Hinit : round_in_range (GameState_init [a; b])) by (left; cbn; lia).
  destruct (game_loop_summary a b fuel _ _ _ _ (two_players_init a b Hab) Hinit Hrun)
    as (Hread & _ & Hu & _ & Hd & Hname & _
        & (da & Ha & Hda & Heva) & (db & Hb & Hdb & Hevb)).
  change (turns_left (GameState_init [a; b])) with 10%nat in *.
  cbn [rounds turn GameState_init] in *.
  split; [exact Hread|]. split; [lia|].
  split; [exists da; split; [exact Ha|]; split; [lia | apply even_mod2, Heva]|].
  split; [exists db; split; [exact Hb|]; split; [lia | apply even_mod2, Hevb]|].
  split; [exact Hname | exact Hu].
Qed.

Lemma X2_main_loop_reads_ten_lines_and_bounds_scores_witness :
  0%nat <> 1%nat
  /\ game_loop 11 new_game game_world
     = (Ok (mkGameState 6 [0%nat; 1%nat] 0),
        world (game_loop 11 new_game game_world))
  /\ exists read,
      stdin game_world
      = (read ++ stdin (world (game_loop 11 new_game game_world)))%list
      /\ List.length read = 10%nat.
Proof.
  assert (R : game_loop 11 new_game game_world
              = (Ok (mkGameState 6 [0%nat; 1%nat] 0),
                 world (game_loop 11 new_game game_world)))
    by (vm_compute; reflexivity).
  split; [discriminate|]. split; [exact R|].
  apply (X2_main_loop_reads_ten_lines_and_bounds_scores
           11%nat 0%nat 1%nat game_world _ _ (fun H => O_S _ H) R).
Defined.

Lemma game_loop_end_of_input (a b : loc) (fuel : nat) :
  forall gs w,
    two_players gs a b -> round_in_range gs ->
    (List.length (stdin w) < turns_left gs)%nat ->
    (List.length (stdin w) < fuel)%nat ->
    result (game_loop fuel gs w) = Raise EOFError.
Proof.
  induction fuel as [|fuel IH]; intros gs w Hgs Hr Hlines Hfuel; [lia|].
  cbn [game_loop]. destruct (Z.leb_spec (rounds gs) 5) as [Hle|Hgt].
  - pose proof (game_loop_turn gs a b w Hgs) as Hturn.
    assert (Hbody : forall (k : GameState -> M GameState),
               (show_summary false gs ;; input ("(Enter) Next Round" ++ NL) ;;
                game_state' <- play_round gs ;; k game_state') w
               = (r <- (show_summary false gs ;;
                        input ("(Enter) Next Round" ++ NL) ;; play_round gs) ;;
                  k r) w).
    { intros k. unfold bind. destruct (show_summary false gs w) as [[[]| |] v1];
        try reflexivity.
      destruct (input _ v1) as [[l| |] v2]; reflexivity. }
    rewrite Hbody. clear Hbody.
    destruct (stdin w) as [|line rest] eqn:Hin.
    + destruct Hturn as (w1 & Hraise). unfold bind at 1.
      rewrite Hraise. reflexivity.
    + destruct Hturn as (w3 & s & Hbody & Hi3 & _).
      rewrite (bind_Ok_run _ _ _ _ _ Hbody).
      rewrite (turns_left_advance gs a b Hgs Hle) in Hlines.
      cbn [List.length] in Hlines, Hfuel.
      apply (IH _ _ (two_players_advance gs a b Hgs)
                (round_in_range_advance gs a b Hgs Hle)); rewrite Hi3; lia.
  - destruct (turns_left_zero gs a b Hgs Hr Hgt) as (Hz & _). lia.
Qed.

(** With fewer than ten lines of input the game is not played to its
    end: the main loop, and with it the main game, raises EOFError at
    the first turn that has no line, and no winner is declared. *)
Theorem X3_game_raises_at_end_of_input :
  forall fuel a b w,
    a <> b ->
    (List.length (stdin w) < 10)%nat ->
    (List.length (stdin w) < fuel)%nat ->
    result (game_loop fuel (GameState_init [a; b]) w) = Raise EOFError
    /\ result (main_game fuel a b w) = Raise EOFError.
Proof.
  intros fuel a b w Hab Hlines Hfuel.
  assert (Hinit : round_in_range (GameState_init [a; b])) by (left; cbn; lia).
  pose proof (game_loop_end_of_input a b fuel _ w (two_players_init a b Hab)
                Hinit Hlines Hfuel) as H.
  split; [exact H|].
  unfold main_game, bind at 1.
  destruct (game_loop fuel (GameState_init [a; b]) w) as [[gs| |] w1];
    unfold result in *; cbn [fst] in *; try discriminate.
  injection H as ->. reflexivity.
Qed.

Lemma X3_game_raises_at_end_of_input_witness :
  0%nat <> 1%nat
  /\ (List.length (stdin (start_world counting (repeat EmptyString 9) [])) < 10)%nat
  /\ result (main_game 11 0%nat 1%nat
               (start_world counting (repeat EmptyString 9) []))
     = Raise EOFError.
Proof.
  split; [discriminate|]. split; [cbn; lia|].
  apply (X3_game_raises_at_end_of_input 11%nat 0%nat 1%nat
           (start_world counting (repeat EmptyString 9) [])
           (fun H => O_S _ H)); cbn; lia.
Defined.

Lemma tiebreak_heap_username (w : World) (a b p : loc) :
  username (tiebreak_heap w a b p) = username (heap w p).
Proof.
  unfold tiebreak_heap, heap_set.
  destruct (Nat.eqb_spec p b) as [->|]; [reflexivity|].
  destruct (Nat.eqb_spec p a) as [->|]; reflexivity.
Qed.

(** A tie break that starts on equal scores and returns has raised
    the score of each player, has left a margin of 1 to 6 points
    between them, has rolled the dice an even number of times, at
    least twice, and has read no input and changed no name. *)
Theorem X4_tiebreak_margin_is_1_to_6 :
  forall fuel gs a b w w',
    two_players gs a b ->
    score (heap w a) = score (heap w b) ->
    play_draw fuel gs w = (Ok tt, w') ->
    score (heap w a) < score (heap w' a)
    /\ score (heap w b) < score (heap w' b)
    /\ 1 <= Z.abs (score (heap w' a) - score (heap w' b)) <= 6
    /\ (exists k, (1 <= k)%nat /\ draws w' = (2 * k + draws w)%nat)
    /\ (forall p, username (heap w' p) = username (heap w p))
    /\ stdin w' = stdin w /\ users w' = users w.
Proof.
  induction fuel as [|fuel IH]; intros gs a b w w' Hgs Heq Hrun; [discriminate|].
  destruct (play_draw_iteration fuel gs a b w Hgs Heq)
    as (w2 & Hstep & Hheap & He & Hd & Hi & _ & Hu & _).
  rewrite Hstep in Hrun.
  destruct (tiebreak_heap_scores w a b (proj1 (proj2 Hgs))) as (Ha & Hb & _).
  pose proof (roll_at_range w 0) as R0. pose proof (roll_at_range w 1) as R1.
  assert (Hname2 : forall p, username (heap w2 p) = username (heap w p))
    by (intros p; rewrite Hheap; apply tiebreak_heap_username).
  destruct (Z.eq_dec (score (heap w2 a)) (score (heap w2 b))) as [Heq2|Hne2].
  - destruct (IH gs a b w2 w' Hgs Heq2 Hrun)
      as (Ha' & Hb' & Hm & (k & Hk & Hd') & Hname & Hi' & Hu').
    rewrite Hheap, Ha in Ha'. rewrite Hheap, Hb in Hb'.
    split; [lia|]. split; [lia|]. split; [exact Hm|].
    split; [exists (S k); split; lia|].
    split; [intros p; rewrite Hname; apply Hname2|].
    split; congruence.
  - destruct fuel as [|fuel]; [discriminate|].
    rewrite (play_draw_exit fuel gs a b w2 Hgs Hne2) in Hrun.
    injection Hrun as <-. rewrite Hheap, Ha, Hb in *.
    split; [lia|]. split; [lia|]. split; [lia|].
    split; [exists 1%nat; split; lia|].
    split; [exact Hname2|]. split; assumption.
Qed.

Lemma X4_tiebreak_margin_is_1_to_6_witness :
  two_players new_game 0%nat 1%nat
  /\ score (heap game_world 0%nat) = score (heap game_world 1%nat)
  /\ play_draw 2 new_game game_world
     = (Ok tt, world (play_draw 2 new_game game_world))
  /\ 1 <= Z.abs (score (heap (world (play_draw 2 new_game game_world)) 0%nat)
                 - score (heap (world (play_draw 2 new_game game_world)) 1%nat))
     <= 6.
Proof.
  assert (H : two_players new_game 0%nat 1%nat).
  { unfold two_players, new_game. cbn. repeat split; [discriminate | lia]. }
  assert (R : play_draw 2 new_game game_world
              = (Ok tt, world (play_draw 2 new_game game_world)))
    by (vm_compute; reflexivity).
  split; [exact H|]. split; [reflexivity|]. split; [exact R|].
  apply (X4_tiebreak_margin_is_1_to_6 2%nat new_game 0%nat 1%nat game_world _
           H eq_refl R).
Defined.

(** A game state needs two players.  With fewer players in the list
    [is_draw] raises IndexError and changes nothing; with one player
    the turn of index 1 raises IndexError after the dice were rolled
    and the score of the round was written, and no score is changed. *)
Theorem X5_fewer_than_two_players_raise_IndexError :
  (forall gs w,
      (List.length (players gs) < 2)%nat ->
      is_draw gs w = (Raise IndexError, w))
  /\ (forall gs a w,
      players gs = [a] -> turn gs = 1 ->
      result (play_round gs w) = Raise IndexError
      /\ heap (world (play_round gs w)) = heap w
      /\ (2 + draws w <= draws (world (play_round gs w)))%nat
      /\ exists written,
          trace (world (play_round gs w))
          = (Print [Str "Final Score: "; Int (round_score w); Str NL]
             :: written ++ trace w)%list).
Proof.
  split.
  - intros gs w Hlen. unfold is_draw.
    destruct (players gs) as [|a [|b l]]; [reflexivity | reflexivity |].
    cbn in Hlen. lia.
  - intros gs a w Hp Ht. unfold play_round, bind. rewrite Hp, Ht.
    rewrite print_run; cbv beta iota.
    rewrite print_run; cbv beta iota.
    rewrite _roll_dice_run; cbv beta iota.
    rewrite print_run; cbv beta iota.
    rewrite _roll_dice_run; cbv beta iota.
    rewrite _calculate_scores_pair; cbv beta iota.
    rewrite print_run; cbv beta iota.
    change (py_index [a] 1) with (@raise loc IndexError). unfold raise.
    match goal with
    | |- context [_calculate_scores ?x ?y ?v] =>
        pose proof (_calculate_scores_frame x y v) as F;
        pose proof (_calculate_scores_draws x y v) as D;
        change x with (roll_at w 0) in *;
        change y with (roll_at w 1) in *;
        change (next_roll v) with (roll_at w 2) in *;
        set (w5 := world (_calculate_scores (roll_at w 0) (roll_at w 1) v)) in *
    end.
    cbv zeta in F. destruct F as (Hh & _ & _ & _ & _ & tr & Htr).
    unfold result, world.
    cbn [fst snd heap draws trace printed rolled] in *.
    clearbody w5. fold (round_score w).
    split; [reflexivity|]. split; [exact Hh|].
    split; [rewrite D; destruct (_ =? _); lia|].
    assert (exists written, trace w5 = (written ++ trace w)%list) as [wr ->]
      by (rewrite Htr; written).
    exists wr. reflexivity.
Qed.

Lemma X5_fewer_than_two_players_raise_IndexError_witness :
  (List.length (players (GameState_init [0%nat])) < 2)%nat
  /\ is_draw (GameState_init [0%nat]) game_world = (Raise IndexError, game_world)
  /\ result (play_round (mkGameState 1 [0%nat] 1) game_world) = Raise IndexError.
Proof.
  split; [cbn; lia|]. split.
  - apply (proj1 X5_fewer_than_two_players_raise_IndexError). cbn. lia.
  - apply (proj2 X5_fewer_than_two_players_raise_IndexError
             (mkGameState 1 [0%nat] 1) 0%nat game_world eq_refl eq_refl).
Defined.

(** ** Login: the four ways of an iteration *)

Lemma passwords_of_In (name password : string) (rows : list string)
    (table : list (string * string)) :
  passwords_of name table = password :: rows -> In (name, password) table.
Proof.
  unfold passwords_of. intros H.
  assert (Hin : In password (map snd (filter (fun r => String.eqb (fst r) name) table)))
    by (rewrite H; left; reflexivity).
  apply in_map_iff in Hin. destruct Hin as ([n pw] & Hpw & Hin).
  apply filter_In in Hin. destruct Hin as (Hin & Hn).
  cbn in Hpw, Hn. apply String.eqb_eq in Hn. subst. exact Hin.
Qed.

Lemma passwords_of_none (name : string) (table : list (string * string)) :
  ~ In name (map fst table) -> passwords_of name table = [].
Proof.
  unfold passwords_of. induction table as [|[n pw] rest IH]; intros H; [reflexivity|].
  cbn [filter fst map] in *. destruct (String.eqb_spec n name) as [->|Hn].
  - exfalso. apply H. left. reflexivity.
  - apply IH. intros Hin. apply H. right. exact Hin.
Qed.

Lemma passwords_of_unique (name password : string)
    (table : list (string * string)) :
  unique_names table -> In (name, password) table ->
  passwords_of name table = [password].
Proof.
  unfold unique_names, passwords_of.
  induction table as [|[n pw] rest IH]; intros Hu Hin; [contradiction|].
  cbn [map fst] in Hu. apply NoDup_cons_iff in Hu. destruct Hu as (Hfresh & Hu).
  cbn [filter fst]. destruct Hin as [Heq|Hin].
  - injection Heq as -> ->. rewrite String.eqb_refl. cbn [map snd].
    f_equal. apply (passwords_of_none name rest Hfresh).
  - destruct (String.eqb_spec n name) as [->|Hn].
    + exfalso. apply Hfresh. apply in_map_iff. exists (name, password).
      split; [reflexivity | exact Hin].
    + apply (IH Hu Hin).
Qed.

Lemma found_in_free (w : World) (not_allowed : list loc) (name : string) :
  ~ name_taken w not_allowed name ->
  (0 <? Z.of_nat (List.length (found_in w not_allowed name))) = false.
Proof.
  intros H. destruct (0 <? _) eqn:E; [|reflexivity].
  exfalso. apply H, found_in_taken, E.
Qed.

(** The start of an iteration on a name that is not taken: the prompt,
    the line, and the use of the database. *)
Lemma authenticate_loop_asks (sha256 : string -> string) (fuel : nat)
    (not_allowed : list loc) (name : string) (rest : list string) (w : World) :
  stdin w = name :: rest ->
  ~ name_taken w not_allowed name ->
  authenticate_loop sha256 (S fuel) not_allowed w
  = (match passwords_of name (users w) with
     | [] =>
         print [Str ("Invalid Username" ++ NL)] ;;
         authenticate_loop sha256 fuel not_allowed
     | required :: _ =>
         user_password <- input "Password: " ;;
         if String.eqb (sha256 user_password) required then Player_init name
         else
           print [Str ("Incorrect Password" ++ NL)] ;;
           authenticate_loop sha256 fuel not_allowed
     end)
      (mkWorld (entropy w) (draws w) rest
               (password_query name ++ Prompt "Username: " :: trace w)%list
               (heap w) (next_loc w) (users w)).
Proof.
  intros Hin Hfree. cbn [authenticate_loop].
  rewrite (bind_Ok_run _ _ _ _ _ (input_line "Username: " name rest w Hin)).
  rewrite (bind_Ok_run _ _ _ _ _ (matching_run not_allowed name _)).
  change (found_in _ not_allowed name) with (found_in w not_allowed name).
  rewrite (found_in_free w not_allowed name Hfree).
  rewrite (bind_Ok_run _ _ _ _ _ (with_SQLManager_select_run name _)).
  reflexivity.
Qed.

(** A name that is in no record of the table of users is refused
    after one use of the database; the password is not asked for, and
    the loop goes on at the username prompt. *)
Theorem X6_unknown_username_is_refused :
  forall sha256 fuel not_allowed name rest w,
    stdin w = name :: rest ->
    ~ name_taken w not_allowed name ->
    ~ In name (map fst (users w)) ->
    authenticate sha256 (S fuel) not_allowed w
    = authenticate sha256 fuel not_allowed (unknown_name name rest w).
Proof.
  intros sha256 fuel not_allowed name rest w Hin Hfree Hnone.
  unfold authenticate, bind at 1 3.
  rewrite (authenticate_loop_asks sha256 fuel not_allowed name rest w Hin Hfree).
  rewrite (passwords_of_none name (users w) Hnone). reflexivity.
Qed.

(** A password whose digest is not the one stored for the name is
    refused, and the loop goes on at the username prompt: the name has
    to be typed again. *)
Theorem X7_wrong_password_is_refused :
  forall sha256 fuel not_allowed name typed password rest w,
    stdin w = name :: typed :: rest ->
    ~ name_taken w not_allowed name ->
    unique_names (users w) ->
    In (name, password) (users w) ->
    sha256 typed <> password ->
    authenticate sha256 (S fuel) not_allowed w
    = authenticate sha256 fuel not_allowed (wrong_password name rest w).
Proof.
  intros sha256 fuel not_allowed name typed password rest w Hin Hfree Hu Hrec Hpw.
  unfold authenticate, bind at 1 3.
  rewrite (authenticate_loop_asks sha256 fuel not_allowed name _ w Hin Hfree).
  rewrite (passwords_of_unique name password (users w) Hu Hrec).
  unfold bind at 1, input at 1. cbn [stdin].
  destruct (String.eqb_spec (sha256 typed) password); [contradiction|].
  reflexivity.
Qed.

Lemma authenticate_logs_in (sha256 : string -> string) (fuel : nat)
    (not_allowed : list loc) (name typed : string) (rest : list string)
    (w : World) :
  stdin w = name :: typed :: rest ->
  ~ name_taken w not_allowed name ->
  unique_names (users w) ->
  In (name, sha256 typed) (users w) ->
  authenticate sha256 (S fuel) not_allowed w
  = (Ok (next_loc w), logged_in name rest w).
Proof.
  intros Hin Hfree Hu Hrec.
  unfold authenticate, bind at 1.
  rewrite (authenticate_loop_asks sha256 fuel not_allowed name _ w Hin Hfree).
  rewrite (passwords_of_unique name _ (users w) Hu Hrec).
  unfold bind at 1, input at 1. cbn [stdin].
  rewrite String.eqb_refl. reflexivity.
Qed.

(** The name of a registered user who is not logged in yet, followed
    by a password whose digest is the one stored, logs in: the call
    returns a new player object of that name with score 0 and leaves
    every other object, the table of users and the dice as they
    were. *)
Theorem X8_registered_user_logs_in :
  forall sha256 fuel not_allowed name typed rest w,
    stdin w = name :: typed :: rest ->
    ~ name_taken w not_allowed name ->
    unique_names (users w) ->
    In (name, sha256 typed) (users w) ->
    authenticate sha256 (S fuel) not_allowed w
    = (Ok (next_loc w), logged_in name rest w).
Proof. intros. eapply authenticate_logs_in; eassumption. Qed.

Lemma login_world_free (lines : list string) (name : string) :
  name <> "alice" -> ~ name_taken (login_world lines) [0%nat] name.
Proof. intros Hn (u & _ & H). cbn in H. congruence. Qed.

Lemma login_world_unique (lines : list string) :
  unique_names (users (login_world lines)).
Proof.
  unfold unique_names. cbn. repeat constructor; cbn; intuition discriminate.
Qed.

Lemma X6_unknown_username_is_refused_witness :
  stdin (login_world ["carol"]) = "carol" :: []
  /\ ~ name_taken (login_world ["carol"]) [0%nat] "carol"
  /\ ~ In "carol" (map fst (users (login_world ["carol"])))
  /\ authenticate mark_digest 2 [0%nat] (login_world ["carol"])
     = authenticate mark_digest 1 [0%nat]
         (unknown_name "carol" [] (login_world ["carol"])).
Proof.
  assert (F : ~ name_taken (login_world ["carol"]) [0%nat] "carol")
    by (apply login_world_free; discriminate).
  assert (N : ~ In "carol" (map fst (users (login_world ["carol"]))))
    by (cbn; intuition discriminate).
  split; [reflexivity|]. split; [exact F|]. split; [exact N|].
  apply (X6_unknown_username_is_refused mark_digest 1%nat [0%nat] "carol" []
           (login_world ["carol"]) eq_refl F N).
Defined.

Lemma X7_wrong_password_is_refused_witness :
  stdin (login_world ["bob"; "pw1"]) = "bob" :: "pw1" :: []
  /\ In ("bob", mark_digest "pw2") (users (login_world ["bob"; "pw1"]))
  /\ mark_digest "pw1" <> mark_digest "pw2"
  /\ authenticate mark_digest 2 [0%nat] (login_world ["bob"; "pw1"])
     = authenticate mark_digest 1 [0%nat]
         (wrong_password "bob" [] (login_world ["bob"; "pw1"])).
Proof.
  assert (F : ~ name_taken (login_world ["bob"; "pw1"]) [0%nat] "bob")
    by (apply login_world_free; discriminate).
  assert (R : In ("bob", mark_digest "pw2") (users (login_world ["bob"; "pw1"])))
    by (right; left; reflexivity).
  assert (D : mark_digest "pw1" <> mark_digest "pw2") by discriminate.
  split; [reflexivity|]. split; [exact R|]. split; [exact D|].
  apply (X7_wrong_password_is_refused mark_digest 1%nat [0%nat] "bob" "pw1"
           (mark_digest "pw2") [] (login_world ["bob"; "pw1"]) eq_refl F
           (login_world_unique _) R D).
Defined.

Lemma X8_registered_user_logs_in_witness :
  stdin (login_world ["bob"; "pw2"]) = "bob" :: "pw2" :: []
  /\ In ("bob", mark_digest "pw2") (users (login_world ["bob"; "pw2"]))
  /\ authenticate mark_digest 1 [0%nat] (login_world ["bob"; "pw2"])
     = (Ok 1%nat, logged_in "bob" [] (login_world ["bob"; "pw2"])).
Proof.
  assert (F : ~ name_taken (login_world ["bob"; "pw2"]) [0%nat] "bob")
    by (apply login_world_free; discriminate).
  assert (R : In ("bob", mark_digest "pw2") (users (login_world ["bob"; "pw2"])))
    by (right; left; reflexivity).
  split; [reflexivity|]. split; [exact R|].
  apply (X8_registered_user_logs_in mark_digest 0%nat [0%nat] "bob" "pw2" []
           (login_world ["bob"; "pw2"]) eq_refl F (login_world_unique _) R).
Defined.

(** ** Login: what a call that returns has done *)

Lemma login_result_later (sha256 : string -> string) (not_allowed : list loc)
    (w w1 : World) (pre : list string) (p : loc) (w' : World) :
  stdin w = (pre ++ stdin w1)%list ->
  heap w1 = heap w -> next_loc w1 = next_loc w -> users w1 = users w ->
  entropy w1 = entropy w -> draws w1 = draws w ->
  login_result sha256 not_allowed w1 p w' ->
  login_result sha256 not_allowed w p w'.
Proof.
  intros Hi Hh Hn Hu He Hd (name & typed & read & Hread & Hrec & Hfree & Hp & Hh' & Hn' & Hu' & He' & Hd').
  exists name, typed, (pre ++ read)%list.
  unfold name_taken in *. rewrite Hh, Hn, Hu, He, Hd in *.
  rewrite Hi, Hread, app_assoc. repeat (split; [reflexivity || assumption|]).
  assumption.
Qed.

Lemma authenticate_loop_returns (sha256 : string -> string) (fuel : nat)
    (not_allowed : list loc) :
  forall w p w',
    authenticate_loop sha256 fuel not_allowed w = (Ok p, w') ->
    login_result sha256 not_allowed w p w'.
Proof.
  induction fuel as [|fuel IH]; intros w p w' Hrun; [discriminate|].
  destruct (stdin w) as [|name rest] eqn:Hin.
  { cbn [authenticate_loop] in Hrun. unfold bind at 1, input at 1 in Hrun.
    rewrite Hin in Hrun. discriminate. }
  destruct (0 <? Z.of_nat (List.length (found_in w not_allowed name))) eqn:E.
  - apply found_in_taken in E.
    rewrite (authenticate_loop_refuses sha256 fuel not_allowed name rest w Hin E) in Hrun.
    apply IH in Hrun.
    match type of Hrun with login_result _ _ ?w1 _ _ =>
      refine (login_result_later sha256 not_allowed w w1 [name] p w' _
              eq_refl eq_refl eq_refl eq_refl eq_refl Hrun) end.
    exact Hin.
  - assert (Hfree : ~ name_taken w not_allowed name).
    { intros H. apply found_in_taken in H. congruence. }
    rewrite (authenticate_loop_asks sha256 fuel not_allowed name rest w Hin Hfree) in Hrun.
    destruct (passwords_of name (users w)) as [|required rows] eqn:Epw.
    + rewrite (bind_Ok_run _ _ _ _ _ (print_run _ _)) in Hrun.
      apply IH in Hrun.
      match type of Hrun with login_result _ _ ?w1 _ _ =>
      refine (login_result_later sha256 not_allowed w w1 [name] p w' _
                eq_refl eq_refl eq_refl eq_refl eq_refl Hrun) end.
      exact Hin.
    + unfold bind at 1, input at 1 in Hrun. cbn [stdin] in Hrun.
      destruct rest as [|typed rest']; [discriminate|].
      cbv beta iota in Hrun.
      destruct (String.eqb_spec (sha256 typed) required) as [Heq|Hne].
      * unfold Player_init in Hrun. injection Hrun as <- <-.
        exists name, typed, []. cbn.
        split; [exact Hin|].
        split; [rewrite Heq; apply (passwords_of_In _ _ _ _ Epw)|].
        split; [exact Hfree|]. repeat split; reflexivity.
      * rewrite (bind_Ok_run _ _ _ _ _ (print_run _ _)) in Hrun.
        apply IH in Hrun.
        match type of Hrun with login_result _ _ ?w1 _ _ =>
      refine (login_result_later sha256 not_allowed w w1 [name; typed] p w' _
                  eq_refl eq_refl eq_refl eq_refl eq_refl Hrun) end.
        exact Hin.
Qed.

(** The player a login returns is a new object with score 0 whose
    name is the name typed last, whose record in the table of users
    holds the digest of the password typed after it, and which is the
    name of no player in [not_allowed]; the login changes no other
    object, and neither the table of users nor the dice. *)
Theorem X9_login_returns_new_registered_player :
  forall sha256 fuel not_allowed w p w',
    authenticate sha256 fuel not_allowed w = (Ok p, w') ->
    exists name typed read,
      stdin w = (read ++ name :: typed :: stdin w')%list
      /\ In (name, sha256 typed) (users w)
      /\ ~ name_taken w not_allowed name
      /\ p = next_loc w
      /\ heap w' p = mkPlayer name 0
      /\ (forall q, q <> p -> heap w' q = heap w q)
      /\ next_loc w' = S (next_loc w)
      /\ users w' = users w /\ entropy w' = entropy w /\ draws w' = draws w.
Proof.
  intros sha256 fuel not_allowed w p w' Hrun. unfold authenticate in Hrun.
  apply bind_Ok_inv in Hrun. destruct Hrun as (q & w1 & Hloop & Hrun).
  rewrite (bind_Ok_run _ _ _ _ _ (print_run _ _)) in Hrun.
  injection Hrun as <- <-.
  destruct (authenticate_loop_returns sha256 fuel not_allowed w q w1 Hloop)
    as (name & typed & read & Hread & Hrec & Hfree & Hp & Hh & Hn & Hu & He & Hd).
  exists name, typed, read. cbn [stdin heap next_loc users entropy draws printed].
  split; [exact Hread|]. split; [exact Hrec|]. split; [exact Hfree|].
  split; [exact Hp|]. rewrite Hh.
  split; [apply heap_set_same|].
  split; [intros r Hr; apply heap_set_other, Hr|].
  repeat (split; [assumption|]). assumption.
Qed.

Lemma X9_login_returns_new_registered_player_witness :
  authenticate mark_digest 3 [0%nat] second_login_world
  = (Ok 1%nat, world (authenticate mark_digest 3 [0%nat] second_login_world))
  /\ exists name typed read,
      stdin second_login_world
      = (read ++ name :: typed
           :: stdin (world (authenticate mark_digest 3 [0%nat] second_login_world)))%list
      /\ In (name, mark_digest typed) (users second_login_world)
      /\ ~ name_taken second_login_world [0%nat] name.
Proof.
  assert (R : authenticate mark_digest 3 [0%nat] second_login_world
              = (Ok 1%nat,
                 world (authenticate mark_digest 3 [0%nat] second_login_world)))
    by (vm_compute; reflexivity).
  split; [exact R|].
  destruct (X9_login_returns_new_registered_player mark_digest 3%nat [0%nat]
              second_login_world _ _ R)
    as (name & typed & read & H1 & H2 & H3 & _).
  exists name, typed, read. split; [exact H1|]. split; [exact H2 | exact H3].
Defined.


Lemma authenticate_run (sha256 : string -> string) (fuel : nat)
    (not_allowed : list loc) (w : World) :
  authenticate sha256 fuel not_allowed w
  = match authenticate_loop sha256 fuel not_allowed w with
    | (Ok p, w1) => (Ok p, printed [Str "Success"] w1)
    | (Raise e, w1) => (Raise e, w1)
    | (OutOfFuel, w1) => (OutOfFuel, w1)
    end.
Proof.
  unfold authenticate, bind.
  destruct (authenticate_loop sha256 fuel not_allowed w) as [[p| |] w1];
    reflexivity.
Qed.



(** ** Signup *)

Lemma existsb_name (name : string) (table : list (string * string)) :
  existsb (fun r => String.eqb (fst r) name) table = true
  <-> In name (map fst table).
Proof.
  rewrite existsb_exists, in_map_iff. split.
  - intros (r & Hin & Hr). exists r. apply String.eqb_eq in Hr. auto.
  - intros (r & Hr & Hin). exists r. split; [exact Hin|]. apply String.eqb_eq, Hr.
Qed.

Lemma create_user_run (sha256 : string -> string) (db : Database)
    (name typed : string) (rest : list string) (w : World) :
  stdin w = name :: typed :: rest ->
  create_user sha256 db w
  = if existsb (fun r => String.eqb (fst r) name) (users w)
    then (Ok (insert_logged name (sha256 typed) db), user_refused rest w)
    else (Ok (insert_logged name (sha256 typed) db),
          user_added name (sha256 typed) rest w).
Proof.
  intros Hin. unfold create_user.
  rewrite (bind_Ok_run _ _ _ _ _ (input_line _ name _ w Hin)).
  unfold bind at 1, input at 1. cbn [stdin]. cbv beta iota.
  unfold with_SQLManager, bind, emit, execute, ret, insert_user, print.
  cbn [users entropy draws stdin trace heap next_loc].
  destruct (existsb _ (users w)); reflexivity.
Qed.

(** A signup under a name that is in no record adds the record of the
    name and of the digest of the password at the end of the table of
    users, and commits. *)
Theorem X11_signup_adds_new_user :
  forall sha256 db name typed rest w,
    stdin w = name :: typed :: rest ->
    ~ In name (map fst (users w)) ->
    create_user sha256 db w
    = (Ok (insert_logged name (sha256 typed) db),
       user_added name (sha256 typed) rest w)
    /\ users (user_added name (sha256 typed) rest w)
       = (users w ++ [(name, sha256 typed)])%list.
Proof.
  intros sha256 db name typed rest w Hin Hnew.
  split; [|reflexivity].
  rewrite (create_user_run sha256 db name typed rest w Hin).
  destruct (existsb _ (users w)) eqn:E; [|reflexivity].
  apply existsb_name in E. contradiction.
Qed.

(** A signup under a name that is in the table is refused with a
    message after the password was asked for all the same; the table
    of users stays as it was. *)
Theorem X12_signup_refuses_taken_name :
  forall sha256 db name typed rest w,
    stdin w = name :: typed :: rest ->
    In name (map fst (users w)) ->
    create_user sha256 db w
    = (Ok (insert_logged name (sha256 typed) db), user_refused rest w)
    /\ users (user_refused rest w) = users w.
Proof.
  intros sha256 db name typed rest w Hin Hold.
  split; [|reflexivity].
  rewrite (create_user_run sha256 db name typed rest w Hin).
  apply existsb_name in Hold. rewrite Hold. reflexivity.
Qed.

Lemma X11_signup_adds_new_user_witness :
  stdin (signup_world ["bob"; "pw2"]) = "bob" :: "pw2" :: []
  /\ ~ In "bob" (map fst (users (signup_world ["bob"; "pw2"])))
  /\ create_user mark_digest empty_database (signup_world ["bob"; "pw2"])
     = (Ok (insert_logged "bob" (mark_digest "pw2") empty_database),
        user_added "bob" (mark_digest "pw2") [] (signup_world ["bob"; "pw2"])).
Proof.
  split; [reflexivity|]. split; [intros []|].
  apply (X11_signup_adds_new_user mark_digest empty_database "bob" "pw2" []
           (signup_world ["bob"; "pw2"]) eq_refl (fun H => H)).
Defined.

Lemma X12_signup_refuses_taken_name_witness :
  stdin (login_world ["bob"; "new"]) = "bob" :: "new" :: []
  /\ In "bob" (map fst (users (login_world ["bob"; "new"])))
  /\ create_user mark_digest empty_database (login_world ["bob"; "new"])
     = (Ok (insert_logged "bob" (mark_digest "new") empty_database),
        user_refused [] (login_world ["bob"; "new"])).
Proof.
  assert (H : In "bob" (map fst (users (login_world ["bob"; "new"]))))
    by (right; left; reflexivity).
  split; [reflexivity|]. split; [exact H|].
  apply (X12_signup_refuses_taken_name mark_digest empty_database "bob" "new" []
           (login_world ["bob"; "new"]) eq_refl H).
Defined.

Lemma unique_names_add (name password : string) (table : list (string * string)) :
  unique_names table -> ~ In name (map fst table) ->
  unique_names (table ++ [(name, password)]).
Proof.
  unfold unique_names. induction table as [|[n pw] rest IH]; intros Hu Hnew.
  - cbn. constructor; [intros [] | constructor].
  - cbn [map fst app] in *. apply NoDup_cons_iff in Hu. destruct Hu as (Hn & Hu).
    constructor.
    + rewrite map_app, in_app_iff. cbn. intros [H|[H|[]]]; [contradiction|].
      apply Hnew. left. symmetry. exact H.
    + apply IH; [exact Hu|]. intros H. apply Hnew. right. exact H.
Qed.

(** What a call of [create_user] that returns has done. *)
Lemma create_user_returns (sha256 : string -> string) (db db' : Database)
    (w w' : World) :
  create_user sha256 db w = (Ok db', w') ->
  exists name typed,
    stdin w = name :: typed :: stdin w'
    /\ db' = insert_logged name (sha256 typed) db
    /\ ((In name (map fst (users w)) /\ users w' = users w)
        \/ (~ In name (map fst (users w))
            /\ users w' = (users w ++ [(name, sha256 typed)])%list))
    /\ heap w' = heap w /\ next_loc w' = next_loc w
    /\ entropy w' = entropy w /\ draws w' = draws w.
Proof.
  intros Hrun. destruct (stdin w) as [|name [|typed rest]] eqn:Hin.
  - unfold create_user, bind at 1, input at 1 in Hrun. rewrite Hin in Hrun.
    discriminate.
  - unfold create_user in Hrun.
    rewrite (bind_Ok_run _ _ _ _ _ (input_line _ name _ w Hin)) in Hrun.
    unfold bind at 1, input at 1 in Hrun. cbn [stdin] in Hrun. discriminate.
  - rewrite (create_user_run sha256 db name typed rest w Hin) in Hrun.
    exists name, typed.
    destruct (existsb _ (users w)) eqn:E; injection Hrun as <- <-; cbn.
    + apply existsb_name in E. repeat (split; [reflexivity|]).
      split; [left; split; [exact E | reflexivity]|]. repeat split; reflexivity.
    + assert (Hnew : ~ In name (map fst (users w))).
      { intros H. apply existsb_name in H. congruence. }
      repeat (split; [reflexivity|]).
      split; [right; split; [exact Hnew | reflexivity]|]. repeat split; reflexivity.
Qed.

(** Whatever is typed, a signup that returns has read two lines, has
    left the table of users as it was or has added one record at its
    end, and keeps the names of the table distinct; it changes no
    player object and no score. *)
Theorem X13_signup_keeps_names_unique :
  forall sha256 db w db' w',
    create_user sha256 db w = (Ok db', w') ->
    (exists name typed, stdin w = name :: typed :: stdin w')
    /\ (exists added, users w' = (users w ++ added)%list
                      /\ (List.length added <= 1)%nat)
    /\ (unique_names (users w) -> unique_names (users w'))
    /\ scores db' = scores db
    /\ heap w' = heap w.
Proof.
  intros sha256 db w db' w' Hrun.
  destruct (create_user_returns sha256 db db' w w' Hrun)
    as (name & typed & Hin & -> & Hcase & Hh & _).
  split; [exists name, typed; exact Hin|].
  destruct Hcase as [(Hold & ->)|(Hnew & ->)].
  - split; [exists []; split; [symmetry; apply app_nil_r | cbn; lia]|].
    split; [auto|]. split; [reflexivity | exact Hh].
  - split; [eexists; split; [reflexivity | cbn; lia]|].
    split; [intros Hu; apply unique_names_add; assumption|].
    split; [reflexivity | exact Hh].
Qed.

Lemma X13_signup_keeps_names_unique_witness :
  create_user mark_digest empty_database (login_world ["carol"; "pw3"])
  = (Ok (insert_logged "carol" (mark_digest "pw3") empty_database),
     user_added "carol" (mark_digest "pw3") [] (login_world ["carol"; "pw3"]))
  /\ unique_names
       (users (user_added "carol" (mark_digest "pw3") []
                 (login_world ["carol"; "pw3"]))).
Proof.
  assert (R : create_user mark_digest empty_database (login_world ["carol"; "pw3"])
              = (Ok (insert_logged "carol" (mark_digest "pw3") empty_database),
                 user_added "carol" (mark_digest "pw3") []
                   (login_world ["carol"; "pw3"])))
    by (vm_compute; reflexivity).
  split; [exact R|].
  apply (proj1 (proj2 (proj2 (X13_signup_keeps_names_unique mark_digest _ _ _ _ R)))).
  apply login_world_unique.
Defined.

(** A user who signs up under a new name can log in with the same
    name and password right after: the login returns a new player
    object of that name. *)
Theorem X14_signup_then_login_succeeds :
  forall sha256 fuel not_allowed db name typed rest w,
    stdin w = name :: typed :: name :: typed :: rest ->
    unique_names (users w) ->
    ~ In name (map fst (users w)) ->
    ~ name_taken w not_allowed name ->
    (db1 <- create_user sha256 db ;; authenticate sha256 (S fuel) not_allowed) w
    = (Ok (next_loc w),
       logged_in name rest
         (user_added name (sha256 typed) (name :: typed :: rest) w))
    /\ heap (logged_in name rest
               (user_added name (sha256 typed) (name :: typed :: rest) w))
            (next_loc w)
       = mkPlayer name 0.
Proof.
  intros sha256 fuel not_allowed db name typed rest w Hin Hu Hnew Hfree.
  split; [|apply heap_set_same].
  assert (Hrun : create_user sha256 db w
                 = (Ok (insert_logged name (sha256 typed) db),
                    user_added name (sha256 typed) (name :: typed :: rest) w)).
  { rewrite (create_user_run sha256 db name typed _ w Hin).
    destruct (existsb _ (users w)) eqn:E; [|reflexivity].
    apply existsb_name in E. contradiction. }
  rewrite (bind_Ok_run _ _ _ _ _ Hrun).
  apply (authenticate_logs_in sha256 fuel not_allowed name typed rest
           (user_added name (sha256 typed) (name :: typed :: rest) w)).
  - reflexivity.
  - exact Hfree.
  - apply unique_names_add; assumption.
  - cbn [users user_added]. apply in_or_app. right. left. reflexivity.
Qed.

Lemma X14_signup_then_login_succeeds_witness :
  stdin (signup_world ["bob"; "pw2"; "bob"; "pw2"])
  = "bob" :: "pw2" :: "bob" :: "pw2" :: []
  /\ result ((db1 <- create_user mark_digest empty_database ;;
              authenticate mark_digest 1 [])
               (signup_world ["bob"; "pw2"; "bob"; "pw2"]))
     = Ok 0%nat.
Proof.
  split; [reflexivity|].
  assert (U : unique_names (users (signup_world ["bob"; "pw2"; "bob"; "pw2"])))
    by constructor.
  assert (F : ~ name_taken (signup_world ["bob"; "pw2"; "bob"; "pw2"]) [] "bob")
    by (intros (u & [] & _)).
  rewrite (proj1 (X14_signup_then_login_succeeds mark_digest 0%nat [] empty_database
                    "bob" "pw2" [] (signup_world ["bob"; "pw2"; "bob"; "pw2"])
                    eq_refl U (fun H => H) F)).
  reflexivity.
Defined.

Lemma input_returns (prompt line : string) (w w1 : World) :
  input prompt w = (Ok line, w1) ->
  stdin w = line :: stdin w1
  /\ heap w1 = heap w /\ next_loc w1 = next_loc w /\ users w1 = users w
  /\ entropy w1 = entropy w /\ draws w1 = draws w.
Proof.
  unfold input. destruct (stdin w) as [|l rest]; intros H; [discriminate|].
  injection H as <- <-. cbn. repeat split; reflexivity.
Qed.

Lemma input_end (prompt : string) (w : World) :
  stdin w = [] ->
  input prompt w
  = (Raise EOFError,
     mkWorld (entropy w) (draws w) [] (Prompt prompt :: trace w)
             (heap w) (next_loc w) (users w)).
Proof. intros H. unfold input. rewrite H. reflexivity. Qed.

(** The signup loop takes the answer n as the end and the answer y as
    a signup, and nothing else as either: after any other answer it
    asks again and goes on with the next line, with nothing changed. *)
Theorem X15_signup_loop_ignores_other_answers :
  (forall sha256 fuel db w,
      signup_loop sha256 (S fuel) "n" db w = (Ok db, w))
  /\ (forall sha256 fuel choice next rest db w,
      choice <> "y" -> choice <> "n" ->
      stdin w = next :: rest ->
      signup_loop sha256 (S fuel) choice db w
      = signup_loop sha256 fuel next db (asked_again rest w)).
Proof.
  split.
  - reflexivity.
  - intros sha256 fuel choice next rest db w Hy Hn Hin. cbn [signup_loop].
    destruct (String.eqb_spec choice "y"); [contradiction|].
    destruct (String.eqb_spec choice "n"); [contradiction|].
    rewrite (bind_Ok_run _ _ _ _ _ (input_line _ next rest w Hin)). reflexivity.
Qed.

Lemma X15_signup_loop_ignores_other_answers_witness :
  "Y" <> "y" /\ "Y" <> "n"
  /\ stdin (signup_world ["n"]) = "n" :: []
  /\ signup_loop mark_digest 2 "Y" empty_database (signup_world ["n"])
     = (Ok empty_database, asked_again [] (signup_world ["n"])).
Proof.
  split; [discriminate|]. split; [discriminate|]. split; [reflexivity|].
  rewrite (proj2 X15_signup_loop_ignores_other_answers mark_digest 1%nat "Y" "n" []
             empty_database (signup_world ["n"]));
    [reflexivity | discriminate | discriminate | reflexivity].
Defined.

(** What a signup loop that returns has done. *)
Lemma signup_loop_returns (sha256 : string -> string) (fuel : nat) :
  forall choice db w db' w',
    signup_loop sha256 fuel choice db w = (Ok db', w') ->
    (exists read, stdin w = (read ++ stdin w')%list)
    /\ (exists added, users w' = (users w ++ added)%list)
    /\ (unique_names (users w) -> unique_names (users w'))
    /\ scores db' = scores db
    /\ heap w' = heap w /\ next_loc w' = next_loc w
    /\ entropy w' = entropy w /\ draws w' = draws w.
Proof.
  induction fuel as [|fuel IH]; intros choice db w db' w' Hrun; [discriminate|].
  cbn [signup_loop] in Hrun. destruct (String.eqb choice "y").
  - apply bind_Ok_inv in Hrun. destruct Hrun as (db1 & w1 & Huser & Hrun).
    apply bind_Ok_inv in Hrun. destruct Hrun as (next & w2 & Hinput & Hrun).
    destruct (create_user_returns sha256 db db1 w w1 Huser)
      as (name & typed & Hin & -> & Hcase & Hh1 & Hn1 & He1 & Hd1).
    destruct (input_returns _ _ _ _ Hinput) as (Hin2 & Hh2 & Hn2 & Hu2 & He2 & Hd2).
    destruct (IH _ _ _ _ _ Hrun)
      as ((read & Hread) & (added & Hadd) & Huniq & Hs & Hh & Hn & He & Hd).
    split.
    { exists (name :: typed :: next :: read). rewrite Hin, Hin2, Hread. reflexivity. }
    rewrite Hs, Hh, Hn, He, Hd, Hh2, Hn2, He2, Hd2, Hh1, Hn1, He1, Hd1.
    rewrite Hu2 in Hadd, Huniq.
    destruct Hcase as [(Hold & Hu1)|(Hnew & Hu1)]; rewrite Hu1 in Hadd, Huniq.
    + split; [exists added; exact Hadd|]. split; [exact Huniq|].
      repeat split; reflexivity.
    + split; [eexists; rewrite Hadd, <- app_assoc; reflexivity|].
      split; [intros Hu; apply Huniq, unique_names_add; assumption|].
      repeat split; reflexivity.
  - destruct (String.eqb choice "n").
    + injection Hrun as <- <-.
      split; [exists []; reflexivity|].
      split; [exists []; symmetry; apply app_nil_r|].
      split; [auto|]. repeat split; reflexivity.
    + apply bind_Ok_inv in Hrun. destruct Hrun as (next & w2 & Hinput & Hrun).
      destruct (input_returns _ _ _ _ Hinput) as (Hin2 & Hh2 & Hn2 & Hu2 & He2 & Hd2).
      destruct (IH _ _ _ _ _ Hrun)
        as ((read & Hread) & (added & Hadd) & Huniq & Hs & Hh & Hn & He & Hd).
      split; [exists (next :: read); rewrite Hin2, Hread; reflexivity|].
      rewrite Hu2 in Hadd, Huniq.
      split; [exists added; exact Hadd|]. split; [exact Huniq|].
      rewrite Hs, Hh, Hn, He, Hd, Hh2, Hn2, He2, Hd2. repeat split; reflexivity.
Qed.

Lemma signup_returns (sha256 : string -> string) (fuel : nat)
    (db db' : Database) (w w' : World) :
  signup sha256 fuel db w = (Ok db', w') ->
  (exists added, users w' = (users w ++ added)%list)
  /\ (unique_names (users w) -> unique_names (users w'))
  /\ scores db' = scores db
  /\ heap w' = heap w /\ next_loc w' = next_loc w
  /\ entropy w' = entropy w /\ draws w' = draws w.
Proof.
  intros Hrun. unfold signup in Hrun.
  rewrite (bind_Ok_run _ _ _ _ _ (print_run _ _)) in Hrun.
  apply bind_Ok_inv in Hrun. destruct Hrun as (choice & w1 & Hinput & Hrun).
  destruct (input_returns _ _ _ _ Hinput) as (_ & Hh1 & Hn1 & Hu1 & He1 & Hd1).
  destruct (signup_loop_returns sha256 fuel _ _ _ _ _ Hrun)
    as (_ & Hadd & Huniq & Hs & Hh & Hn & He & Hd).
  cbn [heap next_loc users entropy draws printed] in *.
  rewrite Hu1 in Hadd, Huniq.
  rewrite Hs, Hh, Hn, He, Hd, Hh1, Hn1, He1, Hd1.
  split; [exact Hadd|]. split; [exact Huniq|]. repeat split; reflexivity.
Qed.

(** A signup section that returns has only added records at the end
    of the table of users and has kept the names of the table
    distinct; it changes no score, no player object and not the
    dice. *)
Theorem X16_signup_section_only_adds_users :
  forall sha256 fuel db w db' w',
    signup sha256 fuel db w = (Ok db', w') ->
    (exists added, users w' = (users w ++ added)%list)
    /\ (unique_names (users w) -> unique_names (users w'))
    /\ scores db' = scores db
    /\ heap w' = heap w /\ next_loc w' = next_loc w
    /\ entropy w' = entropy w /\ draws w' = draws w.
Proof. intros. eapply signup_returns. eassumption. Qed.

Lemma X16_signup_section_only_adds_users_witness :
  signup mark_digest 3 empty_database
    (signup_world ["y"; "bob"; "pw2"; "y"; "bob"; "other"; "n"])
  = (Ok (insert_logged "bob" (mark_digest "other")
           (insert_logged "bob" (mark_digest "pw2") empty_database)),
     world (signup mark_digest 3 empty_database
              (signup_world ["y"; "bob"; "pw2"; "y"; "bob"; "other"; "n"])))
  /\ users (world (signup mark_digest 3 empty_database
                     (signup_world ["y"; "bob"; "pw2"; "y"; "bob"; "other"; "n"])))
     = [("bob", mark_digest "pw2")]
  /\ exists added,
      users (world (signup mark_digest 3 empty_database
                      (signup_world ["y"; "bob"; "pw2"; "y"; "bob"; "other"; "n"])))
      = (users (signup_world ["y"; "bob"; "pw2"; "y"; "bob"; "other"; "n"])
           ++ added)%list.
Proof.
  assert (R : signup mark_digest 3 empty_database
                (signup_world ["y"; "bob"; "pw2"; "y"; "bob"; "other"; "n"])
              = (Ok (insert_logged "bob" (mark_digest "other")
                       (insert_logged "bob" (mark_digest "pw2") empty_database)),
                 world (signup mark_digest 3 empty_database
                          (signup_world ["y"; "bob"; "pw2"; "y"; "bob"; "other"; "n"]))))
    by (vm_compute; reflexivity).
  split; [exact R|]. split; [vm_compute; reflexivity|].
  apply (proj1 (X16_signup_section_only_adds_users mark_digest 3%nat _ _ _ _ R)).
Defined.

(** ** The table of scores *)

Lemma rowids_from_none (first : Z) (name : string)
    (table : list (string * string)) :
  ~ In name (map fst table) -> rowids_from first name table = [].
Proof.
  revert first. induction table as [|[n pw] rest IH]; intros first H; [reflexivity|].
  cbn [rowids_from fst]. cbn [map fst] in H.
  destruct (String.eqb_spec n name) as [->|Hn].
  - exfalso. apply H. left. reflexivity.
  - apply IH. intros Hin. apply H. right. exact Hin.
Qed.

Lemma rowids_from_some (first : Z) (name : string)
    (table : list (string * string)) :
  In name (map fst table) ->
  exists id rest r,
    rowids_from first name table = id :: rest
    /\ first <= id < first + Z.of_nat (List.length table)
    /\ nth_error table (Z.to_nat (id - first)) = Some r
    /\ fst r = name.
Proof.
  revert first. induction table as [|[n pw] tl IH]; intros first H; [contradiction|].
  cbn [rowids_from fst]. destruct (String.eqb_spec n name) as [->|Hn].
  - exists first, (rowids_from (first + 1) name tl), (name, pw).
    split; [reflexivity|]. split; [cbn [List.length]; lia|].
    rewrite Z.sub_diag. split; reflexivity.
  - destruct H as [H|H]; [cbn in H; contradiction|].
    destruct (IH (first + 1) H) as (id & rest & r & Hrows & Hid & Hnth & Hr).
    exists id, rest, r. split; [exact Hrows|].
    split; [cbn [List.length]; lia|]. split; [|exact Hr].
    replace (Z.to_nat (id - first)) with (S (Z.to_nat (id - (first + 1)))) by lia.
    exact Hnth.
Qed.

Lemma save_score_registered (player : loc) (db : Database) (w : World) :
  In (username (heap w player)) (map fst (users w)) ->
  exists id r,
    save_score player db w
    = (Ok (score_saved (username (heap w player)) id (score (heap w player)) db),
       committed w)
    /\ 1 <= id <= Z.of_nat (List.length (users w))
    /\ row_at id (users w) = Some r
    /\ fst r = username (heap w player).
Proof.
  intros H.
  destruct (rowids_from_some 1 _ _ H) as (id & rest & r & Hrows & Hid & Hnth & Hr).
  exists id, r. split.
  - unfold save_score, with_SQLManager, bind, emit, get_username, execute, ret,
      select_rowid, get_score.
    cbv beta iota. cbn [users heap]. rewrite Hrows. reflexivity.
  - split; [lia|]. split; [|exact Hr].
    unfold row_at. destruct (Z.leb_spec 1 id); [exact Hnth | lia].
Qed.



Lemma save_score_unregistered (player : loc) (db : Database) (w : World) :
  ~ In (username (heap w player)) (map fst (users w)) ->
  save_score player db w = (Raise IndexError, not_committed w).
Proof.
  intros H.
  unfold save_score, with_SQLManager, bind, emit, get_username, execute, ret,
    select_rowid.
  cbv beta iota. cbn [users heap]. rewrite (rowids_from_none 1 _ _ H). reflexivity.
Qed.

(** The score of a player whose name is in no record of the table of
    users is not saved: [save_score] raises IndexError, and the
    connection is closed without a commit. *)
Theorem X18_save_score_of_unknown_player_raises :
  forall player db w,
    ~ In (username (heap w player)) (map fst (users w)) ->
    save_score player db w = (Raise IndexError, not_committed w).
Proof. intros. apply save_score_unregistered. assumption. Qed.

Lemma X18_save_score_of_unknown_player_raises_witness :
  ~ In (username (heap game_world 0%nat)) (map fst (users game_world))
  /\ save_score 0%nat empty_database game_world
     = (Raise IndexError, not_committed game_world).
Proof.
  split; [intros []|].
  apply (X18_save_score_of_unknown_player_raises 0%nat empty_database game_world
           (fun H => H)).
Defined.

Lemma row_at_valid (table : list (string * string)) (id : Z) :
  1 <= id <= Z.of_nat (List.length table) ->
  exists r, row_at id table = Some r.
Proof.
  intros Hid. unfold row_at. destruct (Z.leb_spec 1 id); [|lia].
  destruct (nth_error table (Z.to_nat (id - 1))) as [r|] eqn:E.
  - exists r. reflexivity.
  - apply nth_error_None in E. lia.
Qed.

Lemma execute_run (sql : string) (params : list SqlValue) (db : Database)
    (w : World) :
  execute sql params db w
  = (Ok (mkDatabase (scores db) ((sql, params) :: executed db)), w).
Proof. reflexivity. Qed.

Lemma select_username_run (rowid : Z) (w : World) :
  select_username rowid w
  = (Ok (match row_at rowid (users w) with
         | Some r => [fst r]
         | None => []
         end), w).
Proof. reflexivity. Qed.

Lemma collect_usernames_run (records : list (Z * Z)) :
  forall acc db w,
    valid_ids (users w) records ->
    collect_usernames records acc db w
    = (Ok ((rev (map (named (users w)) records) ++ acc)%list,
           lookups_logged records db), w).
Proof.
  induction records as [|r rest IH]; intros acc db w Hvalid; [reflexivity|].
  apply Forall_cons_iff in Hvalid. destruct Hvalid as (Hr & Hrest).
  destruct (row_at_valid (users w) (fst r) Hr) as (u & Hu).
  cbn [collect_usernames].
  rewrite (bind_Ok_run _ _ _ _ _ (execute_run _ _ _ _)).
  rewrite (bind_Ok_run _ _ _ _ _ (select_username_run _ _)). cbv beta.
  rewrite Hu. unfold bind at 1. change (py_index [fst u] 0 w) with (Ok (fst u), w).
  cbv beta iota. rewrite (IH _ _ w Hrest).
  cbn [map rev lookups_logged fold_left]. rewrite <- app_assoc.
  unfold named at 3, name_of_id. rewrite Hu. reflexivity.
Qed.

Lemma collect_usernames_raises (records : list (Z * Z)) :
  forall acc db w,
    (exists r, In r records /\ row_at (fst r) (users w) = None) ->
    collect_usernames records acc db w = (Raise IndexError, w).
Proof.
  induction records as [|r rest IH]; intros acc db w (bad & Hin & Hbad);
    [contradiction|].
  cbn [collect_usernames].
  rewrite (bind_Ok_run _ _ _ _ _ (execute_run _ _ _ _)).
  rewrite (bind_Ok_run _ _ _ _ _ (select_username_run _ _)). cbv beta.
  destruct (row_at (fst r) (users w)) as [u|] eqn:Hu.
  - unfold bind at 1. change (py_index [fst u] 0 w) with (Ok (fst u), w).
    cbv beta iota. apply IH. exists bad. split; [|exact Hbad].
    destruct Hin as [->|Hin]; [congruence | exact Hin].
  - reflexivity.
Qed.

Lemma print_scores_run (lines : list (string * Z)) :
  forall w,
    print_scores lines w = (Ok tt, wrote (rev (map line_of lines)) w).
Proof.
  induction lines as [|l rest IH]; intros w.
  - destruct w. reflexivity.
  - cbn [print_scores]. rewrite (bind_Ok_run _ _ _ _ _ (print_run _ _)).
    rewrite IH. unfold wrote, printed. cbn [map rev entropy draws stdin trace heap next_loc users].
    rewrite <- app_assoc. reflexivity.
Qed.

Lemma display_top_scores_run (order : list (Z * Z) -> list (Z * Z))
    (db : Database) (w : World) :
  valid_ids (users w) (firstn 5 (order (scores db))) ->
  display_top_scores order db w
  = (Ok (lookups_logged (firstn 5 (order (scores db))) (top_logged db)),
     wrote (map (score_line (users w)) (firstn 5 (order (scores db))))
           (printed [Str (NL ++ "===TOP SCORES===")] (committed w))).
Proof.
  intros Hvalid. unfold display_top_scores.
  assert (Hfetch :
            with_SQLManager
              (db1 <- execute "SELECT * FROM scores ORDER BY score LIMIT 5" [] db ;;
               collect_usernames (firstn 5 (order (scores db))) [] db1) w
            = (Ok (rev (map (named (users w)) (firstn 5 (order (scores db)))),
                   lookups_logged (firstn 5 (order (scores db))) (top_logged db)),
               committed w)).
  { unfold with_SQLManager, bind at 1 2, emit at 1, execute at 1, ret at 1.
    rewrite collect_usernames_run by exact Hvalid.
    rewrite app_nil_r. reflexivity. }
  rewrite (bind_Ok_run _ _ _ _ _ Hfetch).
  rewrite (bind_Ok_run _ _ _ _ _ (print_run _ _)).
  cbn [fst snd]. unfold bind. rewrite print_scores_run.
  rewrite <- map_rev, rev_involutive, map_map. reflexivity.
Qed.




Lemma valid_ids_shown (order : list (Z * Z) -> list (Z * Z))
    (table : list (string * string)) (records : list (Z * Z)) (n : nat) :
  Permutation (order records) records ->
  valid_ids table records ->
  valid_ids table (firstn n (order records)).
Proof.
  unfold valid_ids. intros Hp Hv. rewrite Forall_forall in *. intros r Hr.
  apply Hv. apply (Permutation_in r Hp).
  rewrite <- (firstn_skipn n (order records)). apply in_or_app. left. exact Hr.
Qed.


Lemma insert_by_score_perm (r : Z * Z) (l : list (Z * Z)) :
  Permutation (insert_by_score r l) (r :: l).
Proof.
  induction l as [|x l IH]; [reflexivity|].
  cbn [insert_by_score]. destruct (snd r <=? snd x); [reflexivity|].
  rewrite IH. apply perm_swap.
Qed.

Lemma insert_by_score_sorted (r : Z * Z) (l : list (Z * Z)) :
  StronglySorted by_score l -> StronglySorted by_score (insert_by_score r l).
Proof.
  induction l as [|x l IH]; intros Hs.
  - constructor; constructor.
  - cbn [insert_by_score]. apply StronglySorted_inv in Hs. destruct Hs as (Hs & Hx).
    destruct (Z.leb_spec (snd r) (snd x)) as [Hle|Hgt].
    + constructor; [constructor; assumption|].
      constructor; [exact Hle|].
      rewrite Forall_forall in *. intros y Hy. unfold by_score in *.
      specialize (Hx y Hy). lia.
    + constructor; [apply IH, Hs|].
      rewrite Forall_forall in *. intros y Hy.
      apply (Permutation_in _ (insert_by_score_perm r l)) in Hy.
      destruct Hy as [<-|Hy]; [unfold by_score; lia | apply Hx, Hy].
Qed.

Lemma sort_by_score_sorts : sorts_by_score sort_by_score.
Proof.
  intros l. induction l as [|r l (Hp & Hs)]; [split; constructor|].
  cbn [sort_by_score]. split.
  - rewrite insert_by_score_perm. constructor. exact Hp.
  - apply insert_by_score_sorted, Hs.
Qed.


(** When one of the records that [ORDER BY score LIMIT 5] returns
    refers to no user, the list of top scores is not written at all:
    [display_top_scores] raises IndexError before the header, and the
    connection is closed without a commit. *)
Theorem X20_top_scores_raise_on_a_record_without_user :
  forall order db w,
    (exists r, In r (firstn 5 (order (scores db)))
               /\ row_at (fst r) (users w) = None) ->
    display_top_scores order db w = (Raise IndexError, not_committed w).
Proof.
  intros order db w Hbad. unfold display_top_scores, bind at 1.
  unfold with_SQLManager, bind at 1 2, emit at 1, execute at 1, ret at 1.
  rewrite collect_usernames_raises; [reflexivity|]. exact Hbad.
Qed.

Lemma X20_top_scores_raise_on_a_record_without_user_witness :
  (exists r, In r (firstn 5 (sort_by_score (scores (mkDatabase [(3, 10)] []))))
             /\ row_at (fst r) (users scores_world) = None)
  /\ display_top_scores sort_by_score (mkDatabase [(3, 10)] []) scores_world
     = (Raise IndexError, not_committed scores_world).
Proof.
  assert (B : exists r,
             In r (firstn 5 (sort_by_score (scores (mkDatabase [(3, 10)] []))))
             /\ row_at (fst r) (users scores_world) = None).
  { exists (3, 10). split; [left; reflexivity | reflexivity]. }
  split; [exact B|].
  apply (X20_top_scores_raise_on_a_record_without_user sort_by_score
           (mkDatabase [(3, 10)] []) scores_world B).
Defined.

Lemma valid_ids_add (table : list (string * string)) (records : list (Z * Z))
    (id s : Z) :
  valid_ids table records -> 1 <= id <= Z.of_nat (List.length table) ->
  valid_ids table (records ++ [(id, s)]).
Proof.
  intros Hv Hid. apply Forall_app. split; [exact Hv|].
  constructor; [exact Hid | constructor].
Qed.



(** ** The whole program *)

Lemma play_draw_frame (gs : GameState) (a b : loc) (fuel : nat) :
  two_players gs a b ->
  forall w w',
    play_draw fuel gs w = (Ok tt, w') ->
    users w' = users w /\ next_loc w' = next_loc w
    /\ forall p, username (heap w' p) = username (heap w p).
Proof.
  intros Hgs. induction fuel as [|fuel IH]; intros w w' Hrun; [discriminate|].
  destruct (Z.eq_dec (score (heap w a)) (score (heap w b))) as [Heq|Hne].
  - destruct (play_draw_iteration fuel gs a b w Hgs Heq)
      as (w2 & Hstep & Hheap & _ & _ & _ & Hn & Hu & _).
    rewrite Hstep in Hrun. destruct (IH w2 w' Hrun) as (Hu' & Hn' & Hname).
    split; [congruence|]. split; [congruence|].
    intros p. rewrite Hname, Hheap. apply tiebreak_heap_username.
  - rewrite (play_draw_exit fuel gs a b w Hgs Hne) in Hrun.
    injection Hrun as <-. repeat split; reflexivity.
Qed.

(** What a main game that returns has done. *)
Lemma main_game_returns (fuel : nat) (a b : loc) (w w' : World)
    (gs : GameState) (winner : loc) :
  a <> b ->
  main_game fuel a b w = (Ok (gs, winner), w') ->
  users w' = users w /\ next_loc w' = next_loc w
  /\ (forall p, username (heap w' p) = username (heap w p))
  /\ ((winner = a /\ score (heap w' a) > score (heap w' b))
      \/ (winner = b /\ score (heap w' b) > score (heap w' a))).
Proof.
  intros Hab Hrun.
  destruct (main_game_inv fuel a b w w' gs winner Hab Hrun)
    as (w1 & w3 & Hloop & Hgs & _ & _ & Htie & Hw' & Hwin).
  assert (Hinit : round_in_range (GameState_init [a; b])) by (left; cbn; lia).
  destruct (game_loop_summary a b fuel _ _ _ _ (two_players_init a b Hab) Hinit Hloop)
    as (_ & _ & Hu1 & Hn1 & _ & Hname1 & _).
  assert (H3 : users w3 = users w1 /\ next_loc w3 = next_loc w1
               /\ (forall p, username (heap w3 p) = username (heap w1 p))
               /\ score (heap w3 a) <> score (heap w3 b)).
  { destruct Htie as [(_ & w2 & Hw2 & Hdraw)|(Hne & ->)].
    - destruct Hw2 as (_ & _ & _ & Hh2 & Hn2 & Hu2 & _).
      destruct (play_draw_frame gs a b fuel Hgs w2 w3 Hdraw) as (Hu3 & Hn3 & Hname3).
      split; [congruence|]. split; [congruence|].
      split; [intros p; rewrite Hname3, Hh2; reflexivity|].
      apply (play_draw_returns_unequal gs a b fuel Hgs w2 w3 Hdraw).
    - repeat split; try reflexivity. exact Hne. }
  destruct H3 as (Hu3 & Hn3 & Hname3 & Hne).
  destruct Hw' as (_ & _ & _ & Hh' & Hn' & Hu' & _).
  split; [congruence|]. split; [congruence|].
  split; [intros p; rewrite Hh', Hname3; apply Hname1|].
  rewrite Hh'. subst winner.
  destruct (Z.gtb_spec (score (heap w3 a)) (score (heap w3 b))).
  - left. split; [reflexivity | lia].
  - right. split; [reflexivity | lia].
Qed.

Lemma create_tables_run (db : Database) (w : World) :
  create_tables db w
  = (Ok (mkDatabase (scores db)
           (("CREATE TABLE IF NOT EXISTS scores (player_id INTEGER, score INTEGER)", [])
            :: ("CREATE TABLE IF NOT EXISTS users (username TEXT UNIQUE, password TEXT)", [])
            :: executed db)),
     committed w).
Proof. reflexivity. Qed.

Lemma In_name_of_record (name password : string) (table : list (string * string)) :
  In (name, password) table -> In name (map fst table).
Proof. intros H. apply in_map_iff. exists (name, password). split; [reflexivity | exact H]. Qed.

Lemma authenticate_returns (sha256 : string -> string) (fuel : nat)
    (not_allowed : list loc) (w w' : World) (p : loc) :
  authenticate sha256 fuel not_allowed w = (Ok p, w') ->
  login_result sha256 not_allowed w p w'.
Proof.
  intros Hrun. rewrite authenticate_run in Hrun.
  destruct (authenticate_loop sha256 fuel not_allowed w) as [[q| |] w1] eqn:Hloop;
    try discriminate.
  injection Hrun as <- <-.
  destruct (authenticate_loop_returns sha256 fuel not_allowed w q w1 Hloop)
    as (name & typed & read & H).
  exists name, typed, read. exact H.
Qed.

Lemma save_score_returns (player : loc) (db db' : Database) (w w' : World) :
  save_score player db w = (Ok db', w') ->
  exists id,
    In (username (heap w player)) (map fst (users w))
    /\ scores db' = (scores db ++ [(id, score (heap w player))])%list
    /\ 1 <= id <= Z.of_nat (List.length (users w))
    /\ name_of_id (users w) id = username (heap w player)
    /\ w' = committed w.
Proof.
  intros Hrun.
  destruct (in_dec string_dec (username (heap w player)) (map fst (users w)))
    as [Hin|Hout].
  - destruct (save_score_registered player db w Hin)
      as (id & r & Hsave & Hid & Hrow & Hr).
    rewrite Hsave in Hrun. injection Hrun as <- <-.
    exists id. split; [exact Hin|]. split; [reflexivity|]. split; [exact Hid|].
    split; [|reflexivity]. unfold name_of_id. rewrite Hrow. exact Hr.
  - rewrite (save_score_unregistered player db w Hout) in Hrun. discriminate.
Qed.

Lemma collect_usernames_returns (records : list (Z * Z)) :
  forall acc db w lines db' w',
    collect_usernames records acc db w = (Ok (lines, db'), w') ->
    w' = w /\ scores db' = scores db.
Proof.
  induction records as [|r rest IH]; intros acc db w lines db' w' Hrun.
  - injection Hrun as _ <- <-. split; reflexivity.
  - cbn [collect_usernames] in Hrun.
    rewrite (bind_Ok_run _ _ _ _ _ (execute_run _ _ _ _)) in Hrun.
    rewrite (bind_Ok_run _ _ _ _ _ (select_username_run _ _)) in Hrun.
    cbv beta in Hrun.
    destruct (row_at (fst r) (users w)) as [u|]; [|discriminate].
    unfold bind at 1 in Hrun.
    change (py_index [fst u] 0 w) with (Ok (fst u), w) in Hrun.
    cbv beta iota in Hrun. apply IH in Hrun. exact Hrun.
Qed.

Lemma display_top_scores_returns (order : list (Z * Z) -> list (Z * Z))
    (db db' : Database) (w w' : World) :
  display_top_scores order db w = (Ok db', w') ->
  scores db' = scores db /\ users w' = users w /\ heap w' = heap w
  /\ next_loc w' = next_loc w /\ stdin w' = stdin w.
Proof.
  intros Hrun. unfold display_top_scores in Hrun.
  apply bind_Ok_inv in Hrun. destruct Hrun as ([lines db1] & w1 & Hfetch & Hrun).
  rewrite (bind_Ok_run _ _ _ _ _ (print_run _ _)) in Hrun.
  cbn [fst snd] in Hrun. unfold bind in Hrun. rewrite print_scores_run in Hrun.
  injection Hrun as <- <-.
  unfold with_SQLManager, bind at 1 2, emit at 1, execute at 1, ret at 1 in Hfetch.
  destruct (collect_usernames _ _ _ _) as [[[l d]| |] v] eqn:Hc; try discriminate.
  apply collect_usernames_returns in Hc. destruct Hc as (-> & Hs).
  injection Hfetch as _ <- <-. cbn. rewrite Hs. repeat split; reflexivity.
Qed.

(** What a main block that returns has done. *)
Lemma main_returns (sha256 : string -> string)
    (order : list (Z * Z) -> list (Z * Z)) (fuel : nat)
    (db db' : Database) (w w' : World) :
  main sha256 order fuel db w = (Ok db', w') ->
  exists one two winner id,
    one <> two
    /\ username (heap w' one) <> username (heap w' two)
    /\ In (username (heap w' one)) (map fst (users w'))
    /\ In (username (heap w' two)) (map fst (users w'))
    /\ ((winner = one /\ score (heap w' one) > score (heap w' two))
        \/ (winner = two /\ score (heap w' two) > score (heap w' one)))
    /\ scores db' = (scores db ++ [(id, score (heap w' winner))])%list
    /\ name_of_id (users w') id = username (heap w' winner)
    /\ exists added, users w' = (users w ++ added)%list.
Proof.
  intros Hrun. unfold main in Hrun.
  rewrite (bind_Ok_run _ _ _ _ _ (create_tables_run _ _)) in Hrun.
  rewrite (bind_Ok_run _ _ _ _ _ (print_run _ _)) in Hrun.
  apply bind_Ok_inv in Hrun. destruct Hrun as (db2 & w2 & Hsignup & Hrun).
  rewrite (bind_Ok_run _ _ _ _ _ (print_run _ _)) in Hrun.
  apply bind_Ok_inv in Hrun. destruct Hrun as (one & w4 & Hlog1 & Hrun).
  rewrite (bind_Ok_run _ _ _ _ _ (print_run _ _)) in Hrun.
  apply bind_Ok_inv in Hrun. destruct Hrun as (two & w6 & Hlog2 & Hrun).
  rewrite (bind_Ok_run _ _ _ _ _ (print_run _ _)) in Hrun.
  apply bind_Ok_inv in Hrun. destruct Hrun as ([gs winner] & w8 & Hgame & Hrun).
  cbn [snd] in Hrun.
  apply bind_Ok_inv in Hrun. destruct Hrun as (db3 & w9 & Hsave & Hshow).
  destruct (signup_returns _ _ _ _ _ _ Hsignup) as ((added & Hadd) & _ & Hs2 & _).
  destruct (authenticate_returns _ _ _ _ _ _ Hlog1)
    as (name1 & typed1 & read1 & _ & Hrec1 & _ & Hone & Hh4 & Hn4 & Hu4 & _).
  destruct (authenticate_returns _ _ _ _ _ _ Hlog2)
    as (name2 & typed2 & read2 & _ & Hrec2 & Hfree2 & Htwo & Hh6 & Hn6 & Hu6 & _).
  cbn [heap users next_loc printed committed scores] in *.
  assert (Hdiff : one <> two) by lia.
  destruct (main_game_returns fuel one two _ w8 gs winner Hdiff Hgame)
    as (Hu8 & _ & Hname8 & Hwin).
  destruct (save_score_returns _ _ _ _ _ Hsave) as (id & _ & Hs3 & _ & Hid & ->).
  destruct (display_top_scores_returns _ _ _ _ _ Hshow) as (Hs' & Hu' & Hh' & _).
  cbn [heap users next_loc printed committed] in *.
  assert (Hn1 : username (heap w' one) = name1).
  { rewrite Hh', Hname8, Hh6, heap_set_other by exact Hdiff.
    rewrite Hh4, heap_set_same. reflexivity. }
  assert (Hn2 : username (heap w' two) = name2).
  { rewrite Hh', Hname8, Hh6, heap_set_same. reflexivity. }
  assert (Husers : users w' = users w2) by congruence.
  exists one, two, winner, id.
  split; [exact Hdiff|].
  split.
  { rewrite Hn1, Hn2. intros Heq. apply Hfree2. exists one.
    split; [left; reflexivity|]. cbn [heap printed].
    rewrite Hh4, heap_set_same. exact Heq. }
  split; [rewrite Hn1, Husers; apply (In_name_of_record _ _ _ Hrec1)|].
  split.
  { rewrite Hn2, Husers. rewrite Hu4 in Hrec2. apply (In_name_of_record _ _ _ Hrec2). }
  rewrite !Hh'. split; [exact Hwin|].
  split; [rewrite Hs', Hs3, Hs2; reflexivity|].
  split; [rewrite Hu'; exact Hid|].
  exists added. rewrite Husers. exact Hadd.
Qed.

(** When the main block returns, two different player objects with
    different names, both in the table of users, have played; the
    winner has the strictly greater score, and this score is the last
    record of the table of scores, under the rowid of the record of
    the winner; the table of users has only grown. *)
Theorem X22_main_saves_the_score_of_the_winner :
  forall sha256 order fuel db w db' w',
    main sha256 order fuel db w = (Ok db', w') ->
    exists one two winner id,
      one <> two
      /\ username (heap w' one) <> username (heap w' two)
      /\ In (username (heap w' one)) (map fst (users w'))
      /\ In (username (heap w' two)) (map fst (users w'))
      /\ ((winner = one /\ score (heap w' one) > score (heap w' two))
          \/ (winner = two /\ score (heap w' two) > score (heap w' one)))
      /\ scores db' = (scores db ++ [(id, score (heap w' winner))])%list
      /\ name_of_id (users w') id = username (heap w' winner)
      /\ exists added, users w' = (users w ++ added)%list.
Proof. intros. eapply main_returns. eassumption. Qed.

Lemma X22_main_saves_the_score_of_the_winner_witness :
  exists (db' : Database) (one two winner : loc) (id : Z),
    main mark_digest sort_by_score 11 empty_database session_world
    = (Ok db', world (main mark_digest sort_by_score 11 empty_database session_world))
    /\ one <> two
    /\ scores db'
       = (scores empty_database
            ++ [(id, score (heap (world (main mark_digest sort_by_score 11
                                           empty_database session_world))
                                 winner))])%list.
Proof.
  assert (R : exists db',
             main mark_digest sort_by_score 11 empty_database session_world
             = (Ok db',
                world (main mark_digest sort_by_score 11 empty_database
                         session_world)))
    by (vm_compute; eexists; reflexivity).
  destruct R as (db' & R).
  destruct (X22_main_saves_the_score_of_the_winner mark_digest sort_by_score 11%nat
              empty_database session_world _ _ R)
    as (one & two & winner & id & Hdiff & _ & _ & _ & _ & Hs & _).
  exists db', one, two, winner, id.
  split; [exact R|]. split; [exact Hdiff | exact Hs].
Defined.

(** A whole session: the second player wins by 30 to 16, and the
    record of the score is saved under rowid 2, the rowid of bob. *)
Example main_session :
  exists db',
    result (main mark_digest sort_by_score 11 empty_database session_world) = Ok db'
    /\ scores db' = [(2, 30)]
    /\ users (world (main mark_digest sort_by_score 11 empty_database session_world))
       = [("alice", mark_digest "pw1"); ("bob", mark_digest "pw2")]
    /\ firstn 2 (trace (world (main mark_digest sort_by_score 11 empty_database
                                 session_world)))
       = [Print [Str (format_10 "bob"); Str TAB; Int 30];
          Print [Str (NL ++ "===TOP SCORES===")]].
Proof. vm_compute. eexists. repeat split; reflexivity. Qed.

(** ** No IndexError in a consistent database *)

Ltac no_ie :=
  first [ discriminate
        | unfold no_IndexError, result; cbn [fst]; discriminate ].

Lemma no_IndexError_bind {A B : Type} (m : M A) (k : A -> M B) (w : World) :
  no_IndexError (m w) ->
  (forall x w1, m w = (Ok x, w1) -> no_IndexError (k x w1)) ->
  no_IndexError (bind m k w).
Proof.
  unfold no_IndexError, result, bind. intros Hm Hk.
  destruct (m w) as [[x| |] w1]; cbn [fst] in *.
  - apply (Hk x w1 eq_refl).
  - intros H. injection H as ->. apply Hm. reflexivity.
  - discriminate.
Qed.

Lemma no_IndexError_Ok {A : Type} (r : Res A * World) (x : A) (w : World) :
  r = (Ok x, w) -> no_IndexError r.
Proof. intros ->. no_ie. Qed.

Lemma no_IndexError_input (prompt : string) (w : World) :
  no_IndexError (input prompt w).
Proof. unfold input. destruct (stdin w); no_ie. Qed.

Lemma no_IndexError_create_user (sha256 : string -> string) (db : Database)
    (w : World) :
  no_IndexError (create_user sha256 db w).
Proof.
  destruct (stdin w) as [|name [|typed rest]] eqn:Hin.
  - unfold create_user, bind at 1, input at 1. rewrite Hin. no_ie.
  - unfold create_user.
    rewrite (bind_Ok_run _ _ _ _ _ (input_line _ name _ w Hin)).
    unfold bind at 1, input at 1. cbn [stdin]. no_ie.
  - rewrite (create_user_run sha256 db name typed rest w Hin).
    destruct (existsb _ _); no_ie.
Qed.

Lemma no_IndexError_signup_loop (sha256 : string -> string) (fuel : nat) :
  forall choice db w, no_IndexError (signup_loop sha256 fuel choice db w).
Proof.
  induction fuel as [|fuel IH]; intros choice db w; [no_ie|].
  cbn [signup_loop]. destruct (String.eqb choice "y").
  - apply no_IndexError_bind; [apply no_IndexError_create_user|]. intros db1 w1 _.
    apply no_IndexError_bind; [apply no_IndexError_input|]. intros next w2 _.
    apply IH.
  - destruct (String.eqb choice "n"); [no_ie|].
    apply no_IndexError_bind; [apply no_IndexError_input|]. intros next w2 _.
    apply IH.
Qed.

Lemma no_IndexError_signup (sha256 : string -> string) (fuel : nat)
    (db : Database) (w : World) :
  no_IndexError (signup sha256 fuel db w).
Proof.
  unfold signup. rewrite (bind_Ok_run _ _ _ _ _ (print_run _ _)).
  apply no_IndexError_bind; [apply no_IndexError_input|]. intros choice w1 _.
  apply no_IndexError_signup_loop.
Qed.

Lemma no_IndexError_authenticate_loop (sha256 : string -> string) (fuel : nat)
    (not_allowed : list loc) :
  forall w, no_IndexError (authenticate_loop sha256 fuel not_allowed w).
Proof.
  induction fuel as [|fuel IH]; intros w; [no_ie|].
  destruct (stdin w) as [|name rest] eqn:Hin.
  { cbn [authenticate_loop]. unfold bind at 1, input at 1. rewrite Hin.
    no_ie. }
  destruct (0 <? Z.of_nat (List.length (found_in w not_allowed name))) eqn:E.
  - apply found_in_taken in E.
    rewrite (authenticate_loop_refuses sha256 fuel not_allowed name rest w Hin E).
    apply IH.
  - assert (Hfree : ~ name_taken w not_allowed name).
    { intros H. apply found_in_taken in H. congruence. }
    rewrite (authenticate_loop_asks sha256 fuel not_allowed name rest w Hin Hfree).
    destruct (passwords_of name (users w)) as [|required rows].
    + rewrite (bind_Ok_run _ _ _ _ _ (print_run _ _)). apply IH.
    + apply no_IndexError_bind; [apply no_IndexError_input|]. intros typed w1 _.
      destruct (String.eqb (sha256 typed) required); [no_ie|].
      rewrite (bind_Ok_run _ _ _ _ _ (print_run _ _)). apply IH.
Qed.

Lemma no_IndexError_authenticate (sha256 : string -> string) (fuel : nat)
    (not_allowed : list loc) (w : World) :
  no_IndexError (authenticate sha256 fuel not_allowed w).
Proof.
  rewrite authenticate_run.
  pose proof (no_IndexError_authenticate_loop sha256 fuel not_allowed w) as H.
  destruct (authenticate_loop sha256 fuel not_allowed w) as [[p| |] w1];
    [no_ie | | no_ie].
  unfold no_IndexError, result in *. cbn [fst] in *. congruence.
Qed.

Lemma no_IndexError_game_loop (a b : loc) (fuel : nat) :
  forall gs w, two_players gs a b -> no_IndexError (game_loop fuel gs w).
Proof.
  induction fuel as [|fuel IH]; intros gs w Hgs; [no_ie|].
  cbn [game_loop]. destruct (rounds gs <=? 5); [|no_ie].
  pose proof (game_loop_turn gs a b w Hgs) as Hturn.
  assert (Hbody : forall (k : GameState -> M GameState),
             (show_summary false gs ;; input ("(Enter) Next Round" ++ NL) ;;
              game_state' <- play_round gs ;; k game_state') w
             = (r <- (show_summary false gs ;;
                      input ("(Enter) Next Round" ++ NL) ;; play_round gs) ;;
                k r) w).
  { intros k. unfold bind. destruct (show_summary false gs w) as [[[]| |] v1];
      try reflexivity.
    destruct (input _ v1) as [[l| |] v2]; reflexivity. }
  rewrite Hbody. clear Hbody.
  destruct (stdin w) as [|line rest].
  - destruct Hturn as (w1 & Hraise). unfold bind at 1. rewrite Hraise. no_ie.
  - destruct Hturn as (w3 & s & Hrun & _).
    rewrite (bind_Ok_run _ _ _ _ _ Hrun).
    apply IH, two_players_advance, Hgs.
Qed.

Lemma no_IndexError_play_draw (gs : GameState) (a b : loc) (fuel : nat) :
  two_players gs a b ->
  forall w, no_IndexError (play_draw fuel gs w).
Proof.
  intros Hgs. induction fuel as [|fuel IH]; intros w; [no_ie|].
  destruct (Z.eq_dec (score (heap w a)) (score (heap w b))) as [Heq|Hne].
  - destruct (play_draw_iteration fuel gs a b w Hgs Heq) as (w2 & -> & _).
    apply IH.
  - rewrite (play_draw_exit fuel gs a b w Hgs Hne). no_ie.
Qed.

Lemma no_IndexError_main_game (fuel : nat) (a b : loc) (w : World) :
  a <> b -> no_IndexError (main_game fuel a b w).
Proof.
  intros Hab. unfold main_game.
  assert (Hinit : round_in_range (GameState_init [a; b])) by (left; cbn; lia).
  apply no_IndexError_bind.
  { apply (no_IndexError_game_loop a b), two_players_init, Hab. }
  intros gs w1 Hloop.
  destruct (game_loop_returns a b fuel _ _ _ _ (two_players_init a b Hab) Hinit Hloop)
    as (Hgs & _ & _).
  pose proof Hgs as (Hp & _ & _).
  rewrite (bind_Ok_run _ _ _ _ _ (is_draw_run gs a b w1 Hp)).
  apply no_IndexError_bind.
  { destruct (score (heap w1 a) =? score (heap w1 b)); [|no_ie].
    destruct (show_summary_run true gs a b w1 Hgs) as (w2 & Hshow & _).
    rewrite (bind_Ok_run _ _ _ _ _ Hshow).
    apply (no_IndexError_play_draw gs a b fuel Hgs). }
  intros [] w3 _.
  destruct (show_summary_run true gs a b w3 Hgs) as (w4 & Hshow & _).
  rewrite (bind_Ok_run _ _ _ _ _ Hshow).
  rewrite Hp. unfold bind. run.
  destruct (score (heap w4 a) >? score (heap w4 b)); run; no_ie.
Qed.

Lemma valid_ids_grow (table added : list (string * string))
    (records : list (Z * Z)) :
  valid_ids table records -> valid_ids (table ++ added) records.
Proof.
  unfold valid_ids. intros H. rewrite Forall_forall in *. intros r Hr.
  specialize (H r Hr). rewrite length_app. lia.
Qed.

Lemma no_IndexError_main (sha256 : string -> string)
    (order : list (Z * Z) -> list (Z * Z)) (fuel : nat) (db : Database)
    (w : World) :
  sorts_by_score order ->
  valid_ids (users w) (scores db) ->
  no_IndexError (main sha256 order fuel db w).
Proof.
  intros Hsort Hvalid. unfold main.
  rewrite (bind_Ok_run _ _ _ _ _ (create_tables_run _ _)).
  rewrite (bind_Ok_run _ _ _ _ _ (print_run _ _)).
  apply no_IndexError_bind; [apply no_IndexError_signup|]. intros db2 w2 Hsignup.
  rewrite (bind_Ok_run _ _ _ _ _ (print_run _ _)).
  apply no_IndexError_bind; [apply no_IndexError_authenticate|]. intros one w4 Hlog1.
  rewrite (bind_Ok_run _ _ _ _ _ (print_run _ _)).
  apply no_IndexError_bind; [apply no_IndexError_authenticate|]. intros two w6 Hlog2.
  rewrite (bind_Ok_run _ _ _ _ _ (print_run _ _)).
  destruct (signup_returns _ _ _ _ _ _ Hsignup) as ((added & Hadd) & _ & Hs2 & _).
  destruct (authenticate_returns _ _ _ _ _ _ Hlog1)
    as (name1 & typed1 & read1 & _ & Hrec1 & _ & Hone & Hh4 & Hn4 & Hu4 & _).
  destruct (authenticate_returns _ _ _ _ _ _ Hlog2)
    as (name2 & typed2 & read2 & _ & Hrec2 & _ & Htwo & Hh6 & Hn6 & Hu6 & _).
  cbn [heap users next_loc printed committed scores] in *.
  assert (Hdiff : one <> two) by lia.
  apply no_IndexError_bind; [apply no_IndexError_main_game, Hdiff|].
  intros [gs winner] w8 Hgame. cbn [snd].
  destruct (main_game_returns fuel one two _ w8 gs winner Hdiff Hgame)
    as (Hu8 & _ & Hname8 & Hwin).
  cbn [heap users next_loc printed] in *.
  assert (Husers : users w8 = (users w ++ added)%list) by congruence.
  assert (Hreg : In (username (heap w8 winner)) (map fst (users w8))).
  { rewrite Hname8, Hh6.
    destruct Hwin as [(-> & _)|(-> & _)].
    - rewrite heap_set_other by exact Hdiff. rewrite Hh4, heap_set_same.
      cbn [username]. replace (users w8) with (users w2) by congruence.
      apply (In_name_of_record _ _ _ Hrec1).
    - rewrite heap_set_same. cbn [username].
      replace (users w8) with (users w4) by congruence.
      apply (In_name_of_record _ _ _ Hrec2). }
  destruct (save_score_registered winner db2 w8 Hreg) as (id & r & Hsave & Hid & _).
  rewrite (bind_Ok_run _ _ _ _ _ Hsave).
  rewrite display_top_scores_run; [no_ie|].
  destruct (Hsort (scores (score_saved (username (heap w8 winner)) id
                             (score (heap w8 winner)) db2))) as (Hperm & _).
  apply valid_ids_shown; [exact Hperm|].
  cbn [users committed scores score_saved].
  apply valid_ids_add; [|exact Hid].
  rewrite Hs2, Husers. apply valid_ids_grow, Hvalid.
Qed.

(** When every record of the table of scores refers to a user at the
    start, the main block never raises IndexError: the winner has
    logged in and so has a record in the table of users, and the
    record saved for the winner refers to it.  The block returns,
    raises EOFError at the end of the input, or goes on in a loop. *)
Theorem X23_main_never_raises_IndexError :
  forall sha256 order fuel db w,
    sorts_by_score order ->
    valid_ids (users w) (scores db) ->
    result (main sha256 order fuel db w) <> Raise IndexError.
Proof. intros. apply no_IndexError_main; assumption. Qed.

Lemma X23_main_never_raises_IndexError_witness :
  sorts_by_score sort_by_score
  /\ valid_ids (users session_world) (scores empty_database)
  /\ result (main mark_digest sort_by_score 11 empty_database session_world)
     <> Raise IndexError.
Proof.
  assert (V : valid_ids (users session_world) (scores empty_database)) by constructor.
  split; [exact sort_by_score_sorts|]. split; [exact V|].
  apply (X23_main_never_raises_IndexError mark_digest sort_by_score 11%nat
           empty_database session_world sort_by_score_sorts V).
Defined.

(** With a record in the table of scores that refers to no user and
    is among the five lowest, the whole session is played and the
    score of the winner saved, and the list of top scores raises. *)
Example main_session_with_record_without_user :
  result (main mark_digest sort_by_score 11 (mkDatabase [(3, 5)] []) session_world)
  = Raise IndexError.
Proof. vm_compute. reflexivity. Qed.

(** ** The dice and the summary *)



(** The summary of a game of two players writes its lines and changes
    nothing else.  The round summary is the header, the round number,
    the name of the player at index [turn] as the next player, and
    the names and scores of the two players; the end summary is the
    header and the names and scores. *)
Theorem X25_show_summary_only_writes :
  forall gs a b w,
    two_players gs a b ->
    show_summary false gs w
    = (Ok tt,
       wrote [Print [Str (username (heap w b)); Str "'s Score: ";
                     Int (score (heap w b))];
              Print [Str (username (heap w a)); Str "'s Score: ";
                     Int (score (heap w a))];
              Print [Str "Next Turn: ";
                     Str (username (heap w (current_of gs a b)))];
              Print [Str "Round: "; Int (rounds gs)];
              Print [Str "===ROUND SUMMARY==="]] w)
    /\ show_summary true gs w
       = (Ok tt,
          wrote [Print [Str (username (heap w b)); Str "'s Score: ";
                        Int (score (heap w b))];
                 Print [Str (username (heap w a)); Str "'s Score: ";
                        Int (score (heap w a))];
                 Print [Str "===END SUMMARY==="]] w).
Proof.
  intros gs a b w Hgs. pose proof Hgs as (Hp & _ & _). split.
  - unfold show_summary, bind. run. cbn [negb]. unfold bind. run.
    rewrite (py_index_current gs a b _ Hgs); cbv beta iota. run.
    rewrite Hp. run. reflexivity.
  - unfold show_summary, bind. run. cbn [negb]. unfold ret.
    rewrite Hp. run. reflexivity.
Qed.

Lemma X25_show_summary_only_writes_witness :
  two_players new_game 0%nat 1%nat
  /\ show_summary true new_game game_world
     = (Ok tt,
        wrote [Print [Str (username (heap game_world 1%nat)); Str "'s Score: ";
                      Int (score (heap game_world 1%nat))];
               Print [Str (username (heap game_world 0%nat)); Str "'s Score: ";
                      Int (score (heap game_world 0%nat))];
               Print [Str "===END SUMMARY==="]] game_world).
Proof.
  assert (H : two_players new_game 0%nat 1%nat).
  { unfold two_players, new_game. cbn. repeat split; [discriminate | lia]. }
  split; [exact H|].
  apply (proj2 (X25_show_summary_only_writes new_game 0%nat 1%nat game_world H)).
Defined.
